(** * Application.cpp: shader loading pipeline of the OpenGL demo

    A shallow embedding of [src/Application.cpp]: the shader-source
    splitter [ParseShader], the compile/link sequence [CompileShader] and
    [CreateShader], the error pollers [GLClearError] and [GLCheckError],
    and [main].

    Text is [string] (one [ascii] per [char]).  The file system, the GL
    driver and GLFW are external to the program: they are an environment
    [Env] of oracles that answer each call from the history of calls made
    so far, so every statement holds for every deterministic driver. *)

From Stdlib Require Import String Ascii List ZArith Bool Lia PeanoNat.
From Stdlib Require Import Permutation.
From Stdlib Require HexString DecimalString.
Import ListNotations.

Local Open Scope string_scope.
Local Open Scope list_scope.

(** ** Strings as the code uses them *)

Module Str.

(** The character written by [std::endl] and consumed by [getline]. *)
Definition newline : ascii := "010"%char.
Definition endl : string := String newline "".

(** [s.find(p) != std::string::npos]; [find] returns the first position
    at which [p] occurs in [s], [None] standing for [npos]. *)
Fixpoint find (p s : string) {struct s} : option nat :=
  if String.prefix p s then Some 0
  else match s with
       | EmptyString => None
       | String _ r => option_map S (find p r)
       end.

Definition contains (p s : string) : bool :=
  match find p s with Some _ => true | None => false end.

(** [s.empty()] *)
Definition empty (s : string) : bool :=
  match s with EmptyString => true | _ => false end.

(** [s.c_str()] read back as a NUL-terminated C string: the characters
    before the first NUL. *)
Fixpoint c_str (s : string) : string :=
  match s with
  | EmptyString => EmptyString
  | String c r => if Ascii.eqb c zero then EmptyString else String c (c_str r)
  end.

(** No newline character occurs in [s]. *)
Fixpoint no_newline (s : string) : bool :=
  match s with
  | EmptyString => true
  | String c r => negb (Ascii.eqb c newline) && no_newline r
  end.

(** The successive results of [getline(stream, line)] on a stream whose
    remaining content is [s]: characters up to the next newline, the
    newline itself discarded; a last line needs no newline; at end of
    input [getline] fails and the loop ends. *)
Fixpoint getlines (s : string) : list string :=
  match s with
  | EmptyString => []
  | String c r =>
      if Ascii.eqb c newline then EmptyString :: getlines r
      else match getlines r with
           | [] => [String c EmptyString]
           | l :: ls => String c l :: ls
           end
  end.

End Str.

(** ** ParseShader *)

Record ShaderProgramSource := mkSource {
  VertexSource : string;
  FragmentSource : string
}.

Inductive ShaderType := NONE | VERTEX | FRAGMENT.

(** [(int)type] *)
Definition ShaderType_int (t : ShaderType) : Z :=
  match t with NONE => -1 | VERTEX => 0 | FRAGMENT => 1 end.

Definition ShaderType_eqb (a b : ShaderType) : bool :=
  match a, b with
  | NONE, NONE | VERTEX, VERTEX | FRAGMENT, FRAGMENT => true
  | _, _ => false
  end.

(** An [std::ifstream]: [None] when the file could not be opened, else the
    content still to be read. *)
Definition ifstream := option string.

Definition FileSystem := string -> option string.

Definition ifstream_open (fs : FileSystem) (filePath : string) : ifstream :=
  fs filePath.

(** Every line [while (getline(stream, line))] delivers; a stream that
    failed to open delivers none. *)
Definition stream_lines (stream : ifstream) : list string :=
  match stream with
  | None => []
  | Some content => Str.getlines content
  end.

(** The locals of [ParseShader]: [type] and the two streams [ss[0]],
    [ss[1]]. *)
Record ParseState := mkParse {
  ptype : ShaderType;
  ss0 : string;
  ss1 : string
}.

(** [ss[i] << line << std::endl] *)
Definition ss_write (st : ParseState) (i : Z) (line : string) : ParseState :=
  if (i =? 0)%Z then mkParse (ptype st) (ss0 st ++ line ++ Str.endl) (ss1 st)
  else if (i =? 1)%Z then mkParse (ptype st) (ss0 st) (ss1 st ++ line ++ Str.endl)
  else st.

(** The body of the [while] loop. *)
Definition parse_line (st : ParseState) (line : string) : ParseState :=
  if Str.contains "#shader" line then
    if Str.contains "vertex" line then mkParse VERTEX (ss0 st) (ss1 st)
    else if Str.contains "fragment" line then mkParse FRAGMENT (ss0 st) (ss1 st)
    else st
  else if negb (ShaderType_eqb (ptype st) NONE) then
    ss_write st (ShaderType_int (ptype st)) line
  else st.

Definition parse_init : ParseState := mkParse NONE "" "".

Definition parse_lines (lines : list string) (st : ParseState) : ParseState :=
  fold_left parse_line lines st.

(** The splitter on a sequence of lines. *)
Definition split (lines : list string) : ShaderProgramSource :=
  let st := parse_lines lines parse_init in
  mkSource (ss0 st) (ss1 st).

Definition ParseStream (stream : ifstream) : ShaderProgramSource :=
  split (stream_lines stream).

Definition ParseShader (fs : FileSystem) (filePath : string) : ShaderProgramSource :=
  ParseStream (ifstream_open fs filePath).

(** ** The GL driver, GLFW and the standard output *)

(** Enumerants of [GL/glew.h] and [GLFW/glfw3.h] used by the program. *)
Definition GL_NO_ERROR : Z := 0.
Definition GL_FALSE : Z := 0.
Definition GLEW_OK : Z := 0.
Definition GL_TRIANGLES : Z := 0x0004.
Definition GL_INT : Z := 0x1404.
Definition GL_FLOAT : Z := 0x1406.
Definition GL_VERSION : Z := 0x1F02.
Definition GL_COLOR_BUFFER_BIT : Z := 0x4000.
Definition GL_ARRAY_BUFFER : Z := 0x8892.
Definition GL_ELEMENT_ARRAY_BUFFER : Z := 0x8893.
Definition GL_STATIC_DRAW : Z := 0x88E4.
Definition GL_FRAGMENT_SHADER : Z := 0x8B30.
Definition GL_VERTEX_SHADER : Z := 0x8B31.
Definition GL_COMPILE_STATUS : Z := 0x8B81.
Definition GL_INFO_LOG_LENGTH : Z := 0x8B84.

Definition sizeof_float : Z := 4.
Definition sizeof_unsigned_int : Z := 4.

(** The calls the program makes to the driver and to GLFW, with the
    arguments it passes.  Handles and pointers are integers ([0] is
    [NULL]); out-parameters are left out, their value is the oracle's
    answer. *)
Inductive Call :=
| glfwInit
| glfwCreateWindow (width height : Z) (title : string) (monitor share : Z)
| glfwTerminate
| glfwMakeContextCurrent (window : Z)
| glewInit
| glGetString (name : Z)
| glGenBuffers (n : Z)
| glBindBuffer (target buffer : Z)
| glBufferData (target size : Z) (data : list Z) (usage : Z)
| glEnableVertexAttribArray (index : Z)
| glVertexAttribPointer (index size type normalized stride pointer : Z)
| glCreateShader (type : Z)
| glShaderSource (shader count : Z) (src : string)
| glCompileShader (shader : Z)
| glGetShaderiv (shader pname : Z)
| glGetShaderInfoLog (shader maxLength : Z)
| glDeleteShader (shader : Z)
| glCreateProgram
| glAttachShader (program shader : Z)
| glLinkProgram (program : Z)
| glValidateProgram (program : Z)
| glUseProgram (program : Z)
| glDeleteProgram (program : Z)
| glClear (mask : Z)
| glDrawElements (mode count type indices : Z)
| glGetError
| glfwWindowShouldClose (window : Z)
| glfwSwapBuffers (window : Z)
| glfwPollEvents.

(** What surrounds the program.  [ret], [text] and [raises] answer a call
    from the calls made before it: the integer it returns (or stores in
    its out-parameter), the text it returns, and the error codes it leaves
    pending.  [DEBUG] says whether the build defines the macro [DEBUG]. *)
Record Env := mkEnv {
  files : FileSystem;
  ret : list Call -> Call -> Z;
  text : list Call -> Call -> string;
  raises : list Call -> Call -> list positive;
  DEBUG : bool
}.

(** [std::cout]: the text written and the sticky [std::hex] flag. *)
Record ostream := mkOstream {
  otext : string;
  ohex : bool
}.

(** The state the program runs in: the calls made so far (oldest first),
    the driver's pending error codes (oldest first; [GL_NO_ERROR] is never
    pending, so codes are [positive]) and [std::cout]. *)
Record World := mkWorld {
  calls : list Call;
  errors : list positive;
  cout : ostream
}.

Definition world0 : World := mkWorld [] [] (mkOstream "" false).

(** State passing over [World]. *)
Definition M (A : Type) : Type := World -> A * World.

Definition mret {A} (a : A) : M A := fun w => (a, w).

Definition mbind {A B} (c : M A) (k : A -> M B) : M B :=
  fun w => let (a, w') := c w in k a w'.

Declare Scope m_scope.
Delimit Scope m_scope with M.
Notation "x <- c ;; k" := (mbind c (fun x => k))
  (at level 61, c at next level, right associativity) : m_scope.
Notation "c ;; k" := (mbind c (fun _ => k))
  (at level 61, right associativity) : m_scope.

(** [std::cout << s] *)
Definition cout_str (s : string) : M unit :=
  fun w => (tt, mkWorld (calls w) (errors w)
                  (mkOstream (otext (cout w) ++ s) (ohex (cout w)))).

(** [std::cout << std::hex] *)
Definition cout_hex : M unit :=
  fun w => (tt, mkWorld (calls w) (errors w) (mkOstream (otext (cout w)) true)).

(** Digits of a non-negative integer in base sixteen, lower case. *)
Definition hex_digits (n : Z) : string :=
  match n with
  | Zpos p => HexString.Raw.of_pos p ""
  | _ => "0"
  end.

Definition dec_digits (n : Z) : string :=
  DecimalString.NilZero.string_of_uint (N.to_uint (Z.to_N n)).

(** [std::cout << n] for an unsigned [n], in the base the stream is in. *)
Definition cout_uint (n : Z) : M unit :=
  fun w => cout_str (if ohex (cout w) then hex_digits n else dec_digits n) w.

Definition cout_endl : M unit := cout_str Str.endl.

Section Program.

Variable env : Env.

Local Open Scope m_scope.
Local Open Scope Z_scope.

(** A call to the driver or to GLFW: it joins the history, the errors it
    raises join the pending ones, and its integer answer comes back. *)
Definition call (c : Call) : M Z :=
  fun w => (ret env (calls w) c,
            mkWorld (calls w ++ [c]) (errors w ++ raises env (calls w) c) (cout w)).

(** The same for a call whose answer is a C string. *)
Definition call_text (c : Call) : M string :=
  fun w => (text env (calls w) c,
            mkWorld (calls w ++ [c]) (errors w ++ raises env (calls w) c) (cout w)).

(** [glGetError()]: the oldest pending code, which it clears, or
    [GL_NO_ERROR] when none is pending. *)
Definition call_glGetError : M Z :=
  fun w => match errors w with
           | [] => (GL_NO_ERROR, mkWorld (calls w ++ [glGetError]) [] (cout w))
           | e :: q => (Zpos e, mkWorld (calls w ++ [glGetError]) q (cout w))
           end.

(** [while (glGetError() != GL_NO_ERROR);] with at most [fuel] tests of
    the condition. *)
Fixpoint GLClearError_loop (fuel : nat) : M unit :=
  match fuel with
  | O => mret tt
  | S n =>
      error <- call_glGetError ;;
      if negb (error =? GL_NO_ERROR) then GLClearError_loop n else mret tt
  end.

(** Every pending code makes the condition true once, so one test more
    than there are pending codes ends the loop. *)
Definition GLClearError : M unit :=
  fun w => GLClearError_loop (S (length (errors w))) w.

(** [while (GLenum error = glGetError()) std::cout << ... ;] with at most
    [fuel] tests of the condition. *)
Fixpoint GLCheckError_loop (fuel : nat) : M unit :=
  match fuel with
  | O => mret tt
  | S n =>
      error <- call_glGetError ;;
      if negb (error =? 0) then
        cout_str "[OpenGL Error] (0x" ;; cout_hex ;; cout_uint error ;;
        cout_str ")" ;; cout_endl ;;
        GLCheckError_loop n
      else mret tt
  end.

Definition GLCheckError : M unit :=
  fun w => GLCheckError_loop (S (length (errors w))) w.

(** The macro [GLCall(x)].  [ASSERT] and [GLLogCall] are defined nowhere
    in the program, so the statement [ASSERT(GLLogCall())] of the [DEBUG]
    expansion is a parameter. *)
Definition GLCall (assert_GLLogCall : M unit) (x : M unit) : M unit :=
  if DEBUG env then GLClearError ;; x ;; assert_GLLogCall else x.

(** [glShaderSource(id, 1, &src, nullptr)]: with no array of lengths the
    driver reads [src] up to its terminating NUL, hence [Str.c_str]. *)
Definition CompileShader (type : Z) (source : string) : M Z :=
  id <- call (glCreateShader type) ;;
  call (glShaderSource id 1 (Str.c_str source)) ;;
  call (glCompileShader id) ;;
  result <- call (glGetShaderiv id GL_COMPILE_STATUS) ;;
  if result =? 0 then
    length <- call (glGetShaderiv id GL_INFO_LOG_LENGTH) ;;
    message <- call_text (glGetShaderInfoLog id length) ;;
    cout_str "Failed to compile " ;;
    cout_str (if type =? GL_VERTEX_SHADER then "vertex" else "fragment") ;;
    cout_str " shader." ;; cout_endl ;;
    cout_str message ;; cout_endl ;;
    call (glDeleteShader id) ;;
    mret 0
  else mret id.

Definition CreateShader (vertexShader fragmentShader : string) : M Z :=
  program <- call glCreateProgram ;;
  vs <- CompileShader GL_VERTEX_SHADER vertexShader ;;
  fs <- CompileShader GL_FRAGMENT_SHADER fragmentShader ;;
  call (glAttachShader program vs) ;;
  call (glAttachShader program fs) ;;
  call (glLinkProgram program) ;;
  call (glValidateProgram program) ;;
  call (glDeleteShader vs) ;;
  call (glDeleteShader fs) ;;
  mret program.

(** [positions] as IEEE-754 binary32 words ([-0.5f] is [0xBF000000],
    [0.5f] is [0x3F000000]) and [indices]. *)
Definition positions : list Z :=
  [0xBF000000; 0xBF000000; 0x3F000000; 0xBF000000;
   0x3F000000; 0x3F000000; 0xBF000000; 0x3F000000].

Definition indices : list Z := [0; 1; 2; 2; 3; 0].

(** One turn of the render loop, after its condition held. *)
Definition frame (window : Z) : M unit :=
  call (glClear GL_COLOR_BUFFER_BIT) ;;
  GLClearError ;;
  call (glDrawElements GL_TRIANGLES 6 GL_INT 0) ;;
  GLCheckError ;;
  call (glfwSwapBuffers window) ;;
  call glfwPollEvents ;;
  mret tt.

(** [while (!glfwWindowShouldClose(window)) ...] run for at most [fuel]
    turns: [true] when the loop ended, [false] when it was still running
    after [fuel] turns. *)
Fixpoint render_loop (fuel : nat) (window : Z) : M bool :=
  match fuel with
  | O => mret false
  | S n =>
      close <- call (glfwWindowShouldClose window) ;;
      if close =? 0 then frame window ;; render_loop n window
      else mret true
  end.

(** [main]: [Some] of the exit status, or [None] when the window was not
    closed within [fuel] frames. *)
Definition main_from (fuel : nat) : M (option Z) :=
  init <- call glfwInit ;;
  if init =? 0 then mret (Some (-1)) else
  window <- call (glfwCreateWindow 640 480 "Hello World" 0 0) ;;
  if window =? 0 then call glfwTerminate ;; mret (Some (-1)) else
  call (glfwMakeContextCurrent window) ;;
  glew <- call glewInit ;;
  (if negb (glew =? GLEW_OK) then cout_str "GLEW INIT NOT OK" ;; cout_endl
   else mret tt) ;;
  version <- call_text (glGetString GL_VERSION) ;;
  cout_str version ;; cout_endl ;;
  buffer <- call (glGenBuffers 1) ;;
  call (glBindBuffer GL_ARRAY_BUFFER buffer) ;;
  call (glBufferData GL_ARRAY_BUFFER (4 * 2 * sizeof_float) positions GL_STATIC_DRAW) ;;
  call (glEnableVertexAttribArray 0) ;;
  call (glVertexAttribPointer 0 2 GL_FLOAT GL_FALSE (2 * sizeof_float) 0) ;;
  ibo <- call (glGenBuffers 1) ;;
  call (glBindBuffer GL_ELEMENT_ARRAY_BUFFER ibo) ;;
  call (glBufferData GL_ELEMENT_ARRAY_BUFFER (6 * sizeof_unsigned_int) indices GL_STATIC_DRAW) ;;
  let source := ParseShader (files env) "res/shaders/Basic.shader" in
  if Str.empty (VertexSource source) || Str.empty (FragmentSource source)
  then mret (Some (-1)) else
  shader <- CreateShader (VertexSource source) (FragmentSource source) ;;
  call (glUseProgram shader) ;;
  closed <- render_loop fuel window ;;
  if closed then
    call (glDeleteProgram shader) ;;
    call glfwTerminate ;;
    mret (Some 0)
  else mret None.

Definition main (fuel : nat) : option Z * World := main_from fuel world0.

End Program.

(** ** Vocabulary of the specification *)

(** A marker line contains the token [#shader]; it is recognized when it
    also contains [vertex] or [fragment]. *)
Definition is_marker (line : string) : bool := Str.contains "#shader" line.

Definition recognized (line : string) : bool :=
  is_marker line && (Str.contains "vertex" line || Str.contains "fragment" line).

(** The section a recognized marker opens. *)
Definition marker_section (line : string) : ShaderType :=
  if Str.contains "vertex" line then VERTEX else FRAGMENT.

(** The section active after the lines [before]: the one opened by the
    last recognized marker among them, [NONE] if there is none. *)
Definition active_section (before : list string) : ShaderType :=
  match List.find recognized (rev before) with
  | Some m => marker_section m
  | None => NONE
  end.

(** The non-marker lines of [rest], in order, each with the section that
    is active when it is read, [before] being the lines already read. *)
Fixpoint tag_from (before rest : list string) : list (ShaderType * string) :=
  match rest with
  | [] => []
  | l :: r =>
      (if is_marker l then [] else [(active_section before, l)])
        ++ tag_from (before ++ [l]) r
  end.

Definition tag_lines (lines : list string) : list (ShaderType * string) :=
  tag_from [] lines.

Definition section_lines (k : ShaderType) (tagged : list (ShaderType * string))
  : list string :=
  map snd (filter (fun t => ShaderType_eqb (fst t) k) tagged).

Definition non_markers (lines : list string) : list string :=
  filter (fun l => negb (is_marker l)) lines.

(** Lines written one after the other, each followed by a newline. *)
Fixpoint join_lines (lines : list string) : string :=
  match lines with
  | [] => ""
  | l :: r => l ++ Str.endl ++ join_lines r
  end.

(** Every non-marker line comes after some recognized marker. *)
Definition under_marker (lines : list string) : Prop :=
  forall before l rest,
    lines = before ++ l :: rest -> is_marker l = false ->
    active_section before <> NONE.

(** [under_marker], decided: no non-marker line is tagged [NONE]. *)
Definition under_markerb (lines : list string) : bool :=
  forallb (fun t => negb (ShaderType_eqb (fst t) NONE)) (tag_lines lines).

(** The two buffers of a split, each put back under its own marker line. *)
Definition rewrap (src : ShaderProgramSource) : string :=
  "#shader vertex" ++ Str.endl ++ VertexSource src
  ++ "#shader fragment" ++ Str.endl ++ FragmentSource src.

(** The calls that create, build or bind a program or a shader stage. *)
Definition shader_call (c : Call) : bool :=
  match c with
  | glCreateShader _ | glShaderSource _ _ _ | glCompileShader _
  | glGetShaderiv _ _ | glGetShaderInfoLog _ _ | glDeleteShader _
  | glCreateProgram | glAttachShader _ _ | glLinkProgram _
  | glValidateProgram _ | glUseProgram _ | glDeleteProgram _ => true
  | _ => false
  end.

Definition is_glGetError (c : Call) : bool :=
  match c with glGetError => true | _ => false end.

Definition is_glLinkProgram (c : Call) : bool :=
  match c with glLinkProgram _ => true | _ => false end.

(** The diagnostic [GLCheckError] prints for one code. *)
Definition error_report (e : positive) : string :=
  "[OpenGL Error] (0x" ++ HexString.Raw.of_pos e "" ++ ")" ++ Str.endl.

Fixpoint error_reports (q : list positive) : string :=
  match q with
  | [] => ""
  | e :: r => error_report e ++ error_reports r
  end.

(** The two stage kinds, the enumerant [CreateShader] passes for each and
    the word the diagnostic uses. *)
Inductive StageKind := Vertex | Fragment.

Definition stage_enum (k : StageKind) : Z :=
  match k with Vertex => GL_VERTEX_SHADER | Fragment => GL_FRAGMENT_SHADER end.

Definition stage_word (k : StageKind) : string :=
  match k with Vertex => "vertex" | Fragment => "fragment" end.

(** The driver's answers to [CompileShader type source] when the calls
    made before it are [hist]: the handle of the new shader object, the
    value of [GL_COMPILE_STATUS], the value of [GL_INFO_LOG_LENGTH] and
    the info log. *)
Section DriverAnswers.

Variables (env : Env) (hist : list Call) (type : Z) (source : string).

Definition shader_id : Z := ret env hist (glCreateShader type).

Definition submit_calls : list Call :=
  [glCreateShader type; glShaderSource shader_id 1 (Str.c_str source);
   glCompileShader shader_id].

Definition compile_status : Z :=
  ret env (hist ++ submit_calls) (glGetShaderiv shader_id GL_COMPILE_STATUS).

Definition info_log_length : Z :=
  ret env (hist ++ submit_calls ++ [glGetShaderiv shader_id GL_COMPILE_STATUS])
      (glGetShaderiv shader_id GL_INFO_LOG_LENGTH).

Definition info_log : string :=
  text env (hist ++ submit_calls ++ [glGetShaderiv shader_id GL_COMPILE_STATUS;
                                     glGetShaderiv shader_id GL_INFO_LOG_LENGTH])
       (glGetShaderInfoLog shader_id info_log_length).

(** The calls of a failed and of a successful [CompileShader]. *)
Definition failed_calls : list Call :=
  submit_calls ++ [glGetShaderiv shader_id GL_COMPILE_STATUS;
                   glGetShaderiv shader_id GL_INFO_LOG_LENGTH;
                   glGetShaderInfoLog shader_id info_log_length;
                   glDeleteShader shader_id].

Definition compiled_calls : list Call :=
  submit_calls ++ [glGetShaderiv shader_id GL_COMPILE_STATUS].

End DriverAnswers.

(** *** Further vocabulary *)

(** The last character of [s] is a newline. *)
Fixpoint ends_with_newline (s : string) : bool :=
  match s with
  | EmptyString => false
  | String c r =>
      match r with
      | EmptyString => Ascii.eqb c Str.newline
      | String _ _ => ends_with_newline r
      end
  end.

(** No NUL character occurs in [s]. *)
Fixpoint no_nul (s : string) : bool :=
  match s with
  | EmptyString => true
  | String c r => negb (Ascii.eqb c zero) && no_nul r
  end.

(** The two lines [CompileShader] prints for a failed stage. *)
Definition diagnostic (word log : string) : string :=
  "Failed to compile " ++ word ++ " shader." ++ Str.endl ++ log ++ Str.endl.

(** How many of the calls [l] satisfy [f]. *)
Definition count (f : Call -> bool) (l : list Call) : nat :=
  length (filter f l).

Definition is_glCreateShader (c : Call) : bool :=
  match c with glCreateShader _ => true | _ => false end.

Definition is_glDeleteShader (c : Call) : bool :=
  match c with glDeleteShader _ => true | _ => false end.

(** [glDeleteShader(id)] *)
Definition deletes (id : Z) (c : Call) : bool :=
  match c with glDeleteShader s => (s =? id)%Z | _ => false end.

Definition is_glfwTerminate (c : Call) : bool :=
  match c with glfwTerminate => true | _ => false end.

Definition is_glClear (c : Call) : bool :=
  match c with glClear _ => true | _ => false end.

Definition is_glDrawElements (c : Call) : bool :=
  match c with glDrawElements _ _ _ _ => true | _ => false end.

Definition is_glfwSwapBuffers (c : Call) : bool :=
  match c with glfwSwapBuffers _ => true | _ => false end.

Definition is_glfwPollEvents (c : Call) : bool :=
  match c with glfwPollEvents => true | _ => false end.

Definition is_glfwWindowShouldClose (c : Call) : bool :=
  match c with glfwWindowShouldClose _ => true | _ => false end.

(** The calls of the render loop. *)
Definition loop_call (c : Call) : bool :=
  match c with
  | glfwWindowShouldClose _ | glClear _ | glGetError | glDrawElements _ _ _ _
  | glfwSwapBuffers _ | glfwPollEvents => true
  | _ => false
  end.

(** ** A sample environment *)

Module Demo.

Local Open Scope Z_scope.

Definition count (f : Call -> bool) (hist : list Call) : Z :=
  Z.of_nat (length (filter f hist)).

Definition is_create (c : Call) : bool :=
  match c with glCreateShader _ | glCreateProgram | glGenBuffers _ => true | _ => false end.

Definition is_swap (c : Call) : bool :=
  match c with glfwSwapBuffers _ => true | _ => false end.

(** The source last given to shader [id]. *)
Fixpoint source_of (id : Z) (hist : list Call) : string :=
  match hist with
  | [] => ""
  | glShaderSource i _ s :: r =>
      match source_of id r with
      | EmptyString => if i =? id then s else ""
      | later => later
      end
  | _ :: r => source_of id r
  end.

(** A driver that hands out fresh handles, compiles a source when it
    mentions [main], flags [GL_INVALID_ENUM] on a draw call whose index
    type is [GL_INT], and closes the window after two frames. *)
Definition ret (hist : list Call) (c : Call) : Z :=
  match c with
  | glfwInit => 1
  | glfwCreateWindow _ _ _ _ _ => 7
  | glewInit => GLEW_OK
  | glGenBuffers _ | glCreateShader _ | glCreateProgram => 1 + count is_create hist
  | glGetShaderiv id pname =>
      if pname =? GL_COMPILE_STATUS
      then (if Str.contains "main" (source_of id hist) then 1 else 0)
      else 6
  | glfwWindowShouldClose _ => if 2 <=? count is_swap hist then 1 else 0
  | _ => 0
  end.

Definition text (hist : list Call) (c : Call) : string :=
  match c with
  | glGetString _ => "4.6.0"
  | glGetShaderInfoLog _ _ => "ERROR"
  | _ => ""
  end.

Definition raises (hist : list Call) (c : Call) : list positive :=
  match c with
  | glDrawElements _ _ type _ => if type =? GL_INT then [1280%positive] else []
  | _ => []
  end.

Definition both_sections : string :=
  join_lines ["#shader vertex"; "void main(){}"; "#shader fragment"; "void main(){}"].

Definition vertex_only : string :=
  join_lines ["#shader vertex"; "void main(){}"].

Definition fs_of (content : string) : FileSystem :=
  fun path => if String.eqb path "res/shaders/Basic.shader" then Some content else None.

Definition no_files : FileSystem := fun _ => None.

Definition env (fs : FileSystem) (debug : bool) : Env :=
  mkEnv fs ret text raises debug.

(** Builds without [DEBUG]: one whose shader file has both sections, one
    whose shader file has a vertex section only. *)
Definition release : Env := env (fs_of both_sections) false.

Definition release_vertex_only : Env := env (fs_of vertex_only) false.

(** The same build on a machine where the calls [failing] picks out
    answer [answer] instead. *)
Definition broken (failing : Call -> bool) (answer : Z) : Env :=
  mkEnv (fs_of both_sections)
        (fun hist c => if failing c then answer else ret hist c)
        text raises false.

Definition is_glfwInit (c : Call) : bool :=
  match c with glfwInit => true | _ => false end.

Definition is_glfwCreateWindow (c : Call) : bool :=
  match c with glfwCreateWindow _ _ _ _ _ => true | _ => false end.

Definition is_glewInit (c : Call) : bool :=
  match c with glewInit => true | _ => false end.

Definition no_glfw : Env := broken is_glfwInit 0.

Definition no_window : Env := broken is_glfwCreateWindow 0.

Definition no_glew : Env := broken is_glewInit 1.

End Demo.

(** ** Facts about strings *)

Section StringFacts.

Local Open Scope string_scope.

Lemma append_nil_r (s : string) : s ++ "" = s.
Proof. induction s as [|c s IH]; simpl; [reflexivity | now rewrite IH]. Qed.

Lemma append_assoc (a b c : string) : (a ++ b) ++ c = a ++ b ++ c.
Proof. induction a as [|x a IH]; simpl; [reflexivity | now rewrite IH]. Qed.

Lemma contains_cons (p : string) (c : ascii) (r : string) :
  Str.contains p (String c r) = String.prefix p (String c r) || Str.contains p r.
Proof.
  unfold Str.contains. cbn [Str.find].
  destruct (String.prefix p (String c r)); [reflexivity|].
  destruct (Str.find p r); reflexivity.
Qed.

Lemma contains_nil (p : string) : Str.contains p "" = String.prefix p "".
Proof. unfold Str.contains; cbn [Str.find]. now destruct (String.prefix p ""). Qed.

(** A pattern without newline cannot match across the end of a line. *)
Lemma prefix_line (p a b : string) :
  Str.no_newline p = true ->
  String.prefix p (a ++ Str.endl ++ b) = String.prefix p a.
Proof.
  revert p; induction a as [|d a IH]; intros [|c p] Hp; try reflexivity.
  - cbn in Hp |- *. apply andb_prop in Hp as [Hc _].
    destruct (ascii_dec c Str.newline) as [->|Hne]; [|reflexivity].
    now rewrite Ascii.eqb_refl in Hc.
  - cbn in Hp. apply andb_prop in Hp as [_ Hp].
    cbn [append String.prefix]. destruct (ascii_dec c d); [now apply IH | reflexivity].
Qed.

Lemma contains_line (p a b : string) :
  Str.no_newline p = true ->
  Str.contains p (a ++ Str.endl ++ b) = Str.contains p a || Str.contains p b.
Proof.
  intros Hp. induction a as [|d a IH].
  - change ("" ++ Str.endl ++ b) with (String Str.newline b).
    rewrite contains_cons, contains_nil.
    change (String Str.newline b) with ("" ++ Str.endl ++ b).
    now rewrite prefix_line.
  - change (String d a ++ Str.endl ++ b) with (String d (a ++ Str.endl ++ b)).
    rewrite !contains_cons, IH, orb_assoc. f_equal.
    change (String d (a ++ Str.endl ++ b)) with (String d a ++ Str.endl ++ b).
    now rewrite prefix_line.
Qed.

Lemma contains_join (p : string) (ls : list string) :
  Str.no_newline p = true -> Str.contains p "" = false ->
  Forall (fun l => Str.contains p l = false) ls ->
  Str.contains p (join_lines ls) = false.
Proof.
  intros Hp He; induction 1 as [|l ls Hl _ IH]; cbn [join_lines]; [assumption|].
  now rewrite contains_line, Hl, IH.
Qed.

Lemma getlines_line (l rest : string) :
  Str.no_newline l = true ->
  Str.getlines (l ++ Str.endl ++ rest) = l :: Str.getlines rest.
Proof.
  induction l as [|c l IH]; intros Hl.
  - reflexivity.
  - cbn in Hl. apply andb_prop in Hl as [Hc Hl].
    cbn [append Str.getlines].
    destruct (Ascii.eqb c Str.newline); [discriminate|].
    now rewrite (IH Hl).
Qed.

Lemma getlines_join (ls : list string) (rest : string) :
  Forall (fun l => Str.no_newline l = true) ls ->
  Str.getlines (join_lines ls ++ rest) = (ls ++ Str.getlines rest)%list.
Proof.
  induction 1 as [|l ls Hl _ IH]; [reflexivity|].
  cbn [join_lines app]. rewrite !append_assoc, getlines_line by assumption.
  now rewrite IH.
Qed.

Lemma getlines_no_newline (s : string) :
  Forall (fun l => Str.no_newline l = true) (Str.getlines s).
Proof.
  induction s as [|c s IH]; cbn [Str.getlines]; [constructor|].
  destruct (Ascii.eqb c Str.newline) eqn:Hc; [now constructor|].
  destruct (Str.getlines s) as [|l ls].
  - repeat constructor. cbn. now rewrite Hc.
  - inversion IH; subst. constructor; [|assumption].
    cbn. now rewrite Hc.
Qed.

Lemma join_lines_app (a b : list string) :
  join_lines (a ++ b)%list = join_lines a ++ join_lines b.
Proof.
  induction a as [|l a IH]; [reflexivity|].
  cbn [app join_lines]. now rewrite IH, !append_assoc.
Qed.

End StringFacts.

(** ** The splitter *)

Section Splitter.

Local Open Scope string_scope.

Lemma active_section_snoc (before : list string) (l : string) :
  active_section (before ++ [l])
  = if recognized l then marker_section l else active_section before.
Proof.
  unfold active_section. rewrite rev_unit. cbn [List.find].
  now destruct (recognized l).
Qed.

(** What one turn of the loop does, case by case. *)
Lemma parse_line_spec (st : ParseState) (l : string) :
  parse_line st l
  = mkParse (if recognized l then marker_section l else ptype st)
      (ss0 st ++ if is_marker l then ""
                 else match ptype st with VERTEX => l ++ Str.endl | _ => "" end)
      (ss1 st ++ if is_marker l then ""
                 else match ptype st with FRAGMENT => l ++ Str.endl | _ => "" end).
Proof.
  destruct st as [t a b].
  unfold parse_line, recognized, marker_section, is_marker, ss_write.
  cbn [ptype ss0 ss1].
  destruct (Str.contains "#shader" l); cbn [andb].
  - destruct (Str.contains "vertex" l), (Str.contains "fragment" l);
      cbn [orb]; now rewrite !append_nil_r.
  - destruct t; cbn; now rewrite ?append_nil_r.
Qed.

Lemma parse_lines_tagged (rest before : list string) (st : ParseState) :
  ptype st = active_section before ->
  parse_lines rest st
  = mkParse (active_section (before ++ rest))
      (ss0 st ++ join_lines (section_lines VERTEX (tag_from before rest)))
      (ss1 st ++ join_lines (section_lines FRAGMENT (tag_from before rest))).
Proof.
  revert before st; induction rest as [|l rest IH]; intros before st Ht.
  - destruct st as [t a b]; cbn in *. now rewrite app_nil_r, !append_nil_r, Ht.
  - cbn [parse_lines fold_left]. fold (parse_lines rest (parse_line st l)).
    rewrite (IH (before ++ [l])%list).
    + rewrite <- app_assoc. cbn [app]. rewrite parse_line_spec.
      cbn [ptype ss0 ss1 tag_from]. rewrite <- Ht.
      destruct (is_marker l); cbn [app]; [now rewrite !append_nil_r|].
      unfold section_lines. cbn [filter fst].
      destruct (ptype st); cbn [ShaderType_eqb map snd join_lines];
        now rewrite ?append_nil_r, ?append_assoc.
    + rewrite parse_line_spec, active_section_snoc. cbn [ptype]. now rewrite Ht.
Qed.

Lemma split_tagged (lines : list string) :
  split lines
  = mkSource (join_lines (section_lines VERTEX (tag_lines lines)))
             (join_lines (section_lines FRAGMENT (tag_lines lines))).
Proof.
  unfold split, tag_lines.
  now rewrite (parse_lines_tagged lines [] parse_init) by reflexivity.
Qed.

Lemma tag_from_lines (before rest : list string) :
  map snd (tag_from before rest) = non_markers rest.
Proof.
  revert before; induction rest as [|l rest IH]; intros before; [reflexivity|].
  cbn [tag_from non_markers filter]. rewrite map_app, IH.
  now destruct (is_marker l).
Qed.

Lemma tag_from_In (t : ShaderType * string) (before rest : list string) :
  In t (tag_from before rest) -> is_marker (snd t) = false /\ In (snd t) rest.
Proof.
  revert before; induction rest as [|l rest IH]; intros before; [intros []|].
  cbn [tag_from]. rewrite in_app_iff. intros [H|H].
  - destruct (is_marker l) eqn:Hl; [destruct H|].
    destruct H as [<-|[]]. cbn. auto.
  - apply IH in H as [? ?]. cbn; auto.
Qed.

Lemma section_lines_In (k : ShaderType) (lines : list string) (l : string) :
  In l (section_lines k (tag_lines lines)) -> is_marker l = false /\ In l lines.
Proof.
  unfold section_lines. rewrite in_map_iff. intros [t [<- Ht]].
  apply filter_In in Ht as [Ht _]. exact (tag_from_In _ _ _ Ht).
Qed.

(** [under_marker] says that no tag is [NONE]. *)
Lemma under_marker_tags (rest before : list string) :
  (forall mid l tl, rest = (mid ++ l :: tl)%list -> is_marker l = false ->
                    active_section (before ++ mid) <> NONE)
  <-> Forall (fun t => fst t <> NONE) (tag_from before rest).
Proof.
  revert before; induction rest as [|l rest IH]; intros before.
  - split; [constructor|]. intros _ [|? ?] ? ? H; discriminate H.
  - cbn [tag_from]. rewrite Forall_app, <- IH. split.
    + intros H. split.
      * destruct (is_marker l) eqn:Hl; constructor; [|constructor].
        cbn. rewrite <- (app_nil_r before). now apply (H [] l rest).
      * intros mid l' tl -> Hl'. rewrite <- app_assoc.
        now apply (H (l :: mid)%list l' tl).
    + intros [Hhd Htl] [|x mid] l' tl E Hl'; injection E as <- E.
      * subst. rewrite Hl' in Hhd. inversion Hhd; subst.
        now rewrite app_nil_r.
      * specialize (Htl mid l' tl E Hl'). now rewrite <- app_assoc in Htl.
Qed.

Lemma under_markerb_spec (lines : list string) :
  under_markerb lines = true -> under_marker lines.
Proof.
  unfold under_markerb, under_marker, tag_lines. intros H mid l tl E Hl.
  apply (proj2 (under_marker_tags lines [])) with (l := l) (tl := tl); auto.
  apply Forall_forall. intros t Ht.
  rewrite forallb_forall in H. specialize (H t Ht).
  now destruct (fst t).
Qed.

Lemma sections_partition (tagged : list (ShaderType * string)) :
  Forall (fun t => fst t <> NONE) tagged ->
  Permutation (section_lines VERTEX tagged ++ section_lines FRAGMENT tagged)
              (map snd tagged).
Proof.
  unfold section_lines.
  induction 1 as [|[k l] tagged Hk _ IH]; [constructor|].
  cbn [filter fst map snd]. destruct k; cbn [ShaderType_eqb map snd app].
  - now contradiction Hk.
  - now constructor.
  - apply Permutation_sym, Permutation_cons_app, Permutation_sym, IH.
Qed.

Lemma parse_nonmarkers_vertex (ls : list string) (a b : string) :
  Forall (fun l => is_marker l = false) ls ->
  parse_lines ls (mkParse VERTEX a b) = mkParse VERTEX (a ++ join_lines ls) b.
Proof.
  intros H; revert a; induction H as [|l ls Hl _ IH]; intros a.
  - cbn. now rewrite append_nil_r.
  - cbn [parse_lines fold_left]. fold (parse_lines ls).
    unfold parse_line. unfold is_marker in Hl. rewrite Hl. cbn.
    fold (parse_lines ls). now rewrite IH, !append_assoc.
Qed.

Lemma parse_nonmarkers_fragment (ls : list string) (a b : string) :
  Forall (fun l => is_marker l = false) ls ->
  parse_lines ls (mkParse FRAGMENT a b) = mkParse FRAGMENT a (b ++ join_lines ls).
Proof.
  intros H; revert b; induction H as [|l ls Hl _ IH]; intros b.
  - cbn. now rewrite append_nil_r.
  - cbn [parse_lines fold_left]. fold (parse_lines ls).
    unfold parse_line. unfold is_marker in Hl. rewrite Hl. cbn.
    fold (parse_lines ls). now rewrite IH, !append_assoc.
Qed.

Lemma parse_none (ls : list string) (a b : string) :
  Forall (fun l => recognized l = false) ls ->
  parse_lines ls (mkParse NONE a b) = mkParse NONE a b.
Proof.
  induction 1 as [|l ls Hl _ IH]; [reflexivity|].
  cbn [parse_lines fold_left]. rewrite parse_line_spec, Hl. cbn [ptype ss0 ss1].
  destruct (is_marker l); rewrite !append_nil_r; exact IH.
Qed.

Lemma parse_lines_app (a b : list string) (st : ParseState) :
  parse_lines (a ++ b) st = parse_lines b (parse_lines a st).
Proof. apply fold_left_app. Qed.

End Splitter.

(** ** Properties of ParseShader *)

Section ParseShaderProperties.

Local Open Scope string_scope.

(** C1. When every non-marker line of the input comes after a recognized
    marker, the two buffers hold every non-marker line exactly once, in
    input order, each followed by a newline, in the buffer of the section
    that was active when the line was read; and for every input neither
    buffer contains the token [#shader]. *)
Theorem ParseShader_sections_C1 (fs : FileSystem) (filePath : string) :
  let lines := stream_lines (ifstream_open fs filePath) in
  let src := ParseShader fs filePath in
  let tagged := tag_lines lines in
  (under_marker lines ->
     map snd tagged = non_markers lines
     /\ Forall (fun t => fst t = VERTEX \/ fst t = FRAGMENT) tagged
     /\ Permutation (section_lines VERTEX tagged ++ section_lines FRAGMENT tagged)
                    (non_markers lines)
     /\ VertexSource src = join_lines (section_lines VERTEX tagged)
     /\ FragmentSource src = join_lines (section_lines FRAGMENT tagged)
     /\ Str.getlines (VertexSource src) = section_lines VERTEX tagged
     /\ Str.getlines (FragmentSource src) = section_lines FRAGMENT tagged)
  /\ Str.contains "#shader" (VertexSource src) = false
  /\ Str.contains "#shader" (FragmentSource src) = false.
Proof.
  intros lines src tagged.
  assert (Hsrc : src = mkSource (join_lines (section_lines VERTEX tagged))
                                (join_lines (section_lines FRAGMENT tagged)))
    by apply split_tagged.
  assert (Hnl : forall k, Forall (fun l => Str.no_newline l = true)
                                 (section_lines k tagged)).
  { intros k. apply Forall_forall. intros l Hl.
    apply section_lines_In in Hl as [_ Hl].
    assert (H := Forall_forall (fun l => Str.no_newline l = true) lines).
    apply H; [|exact Hl]. unfold lines, stream_lines.
    destruct (ifstream_open fs filePath); [apply getlines_no_newline | constructor]. }
  assert (Hmk : forall k, Forall (fun l => Str.contains "#shader" l = false)
                                 (section_lines k tagged)).
  { intros k. apply Forall_forall. intros l Hl.
    now apply section_lines_In in Hl as [Hl _]. }
  rewrite Hsrc. cbn [VertexSource FragmentSource]. split; [intros Hu|].
  - assert (Htags : Forall (fun t => fst t <> NONE) tagged).
    { apply (proj1 (under_marker_tags lines [])). exact Hu. }
    repeat split.
    + apply tag_from_lines.
    + revert Htags. apply Forall_impl. intros [[| |] l] Hk; cbn in *; auto.
      now contradiction Hk.
    + rewrite <- (tag_from_lines [] lines). now apply sections_partition.
    + rewrite <- (append_nil_r (join_lines _)), getlines_join by apply Hnl.
      apply app_nil_r.
    + rewrite <- (append_nil_r (join_lines _)), getlines_join by apply Hnl.
      apply app_nil_r.
  - split; apply contains_join; try reflexivity; apply Hmk.
Qed.

(** The hypothesis of C1 holds of a file with a vertex and a fragment
    section, and its buffers hold the lines of each. *)
Lemma ParseShader_sections_C1_witness :
  under_marker (stream_lines (ifstream_open (Demo.fs_of Demo.both_sections)
                                            "res/shaders/Basic.shader"))
  /\ VertexSource (ParseShader (Demo.fs_of Demo.both_sections) "res/shaders/Basic.shader")
     = join_lines ["void main(){}"].
Proof.
  assert (Hu : under_marker (stream_lines (ifstream_open
                 (Demo.fs_of Demo.both_sections) "res/shaders/Basic.shader")))
    by (apply under_markerb_spec; vm_compute; reflexivity).
  split; [exact Hu|].
  destruct (ParseShader_sections_C1 (Demo.fs_of Demo.both_sections)
              "res/shaders/Basic.shader") as [H _].
  destruct (H Hu) as (_ & _ & _ & Hv & _). rewrite Hv. vm_compute. reflexivity.
Defined.

(** C4. Splitting the two buffers of a split, each put back under its own
    marker line, gives the same two buffers again. *)
Theorem rewrap_roundtrip_C4 :
  (forall stream : ifstream,
      ParseStream (Some (rewrap (ParseStream stream))) = ParseStream stream)
  /\ (forall (fs : FileSystem) (filePath filePath' : string),
         ParseShader (fun _ => Some (rewrap (ParseShader fs filePath))) filePath'
         = ParseShader fs filePath).
Proof.
  assert (H : forall stream : ifstream,
             ParseStream (Some (rewrap (ParseStream stream))) = ParseStream stream).
  { intros stream. unfold ParseStream at 2 3.
    set (lines := stream_lines stream).
    assert (Hin : forall k l, In l (section_lines k (tag_lines lines)) ->
                              is_marker l = false /\ Str.no_newline l = true).
    { intros k l Hl. apply section_lines_In in Hl as [Hm Hl]. split; [exact Hm|].
      assert (Hnl : Forall (fun l => Str.no_newline l = true) lines).
      { unfold lines, stream_lines.
        destruct stream; [apply getlines_no_newline | constructor]. }
      rewrite Forall_forall in Hnl. now apply Hnl. }
    rewrite split_tagged. unfold rewrap, ParseStream, stream_lines.
    cbn [VertexSource FragmentSource].
    set (vl := section_lines VERTEX (tag_lines lines)).
    set (fl := section_lines FRAGMENT (tag_lines lines)).
    assert (Hv : Forall (fun l => is_marker l = false) vl)
      by (apply Forall_forall; intros l Hl; now apply (Hin VERTEX)).
    assert (Hf : Forall (fun l => is_marker l = false) fl)
      by (apply Forall_forall; intros l Hl; now apply (Hin FRAGMENT)).
    rewrite getlines_line by reflexivity.
    rewrite getlines_join by (apply Forall_forall; intros l Hl; now apply (Hin VERTEX)).
    rewrite getlines_line by reflexivity.
    rewrite <- (append_nil_r (join_lines fl)).
    rewrite getlines_join by (apply Forall_forall; intros l Hl; now apply (Hin FRAGMENT)).
    cbn [Str.getlines]. rewrite app_nil_r.
    unfold split. cbn [parse_lines fold_left].
    change (parse_line parse_init "#shader vertex") with (mkParse VERTEX "" "").
    fold (parse_lines (vl ++ "#shader fragment" :: fl)%list (mkParse VERTEX "" "")).
    rewrite parse_lines_app, parse_nonmarkers_vertex by exact Hv.
    cbn [parse_lines fold_left].
    change (parse_line (mkParse VERTEX ("" ++ join_lines vl) "") "#shader fragment")
      with (mkParse FRAGMENT ("" ++ join_lines vl) "").
    fold (parse_lines fl (mkParse FRAGMENT ("" ++ join_lines vl) "")).
    rewrite parse_nonmarkers_fragment by exact Hf.
    cbn [ss0 ss1 append]. now rewrite append_nil_r. }
  split; [exact H|]. intros fs filePath filePath'. apply H.
Qed.

(** C6. A marker line that names neither [vertex] nor [fragment] leaves
    the state of the parse as it was: the section stays and the line is
    written to no buffer, so the split is the one of the input without
    that line. *)
Theorem unrecognized_marker_ignored_C6 :
  (forall (st : ParseState) (m : string),
      is_marker m = true -> Str.contains "vertex" m = false ->
      Str.contains "fragment" m = false ->
      parse_line st m = st)
  /\ (forall (before rest : list string) (m : string),
         is_marker m = true -> Str.contains "vertex" m = false ->
         Str.contains "fragment" m = false ->
         split (before ++ m :: rest) = split (before ++ rest))
  /\ split ["#shader vertex"; "a"; "#shader geometry"; "b"]
     = mkSource ("a" ++ Str.endl ++ "b" ++ Str.endl) "".
Proof.
  assert (H : forall st m, is_marker m = true -> Str.contains "vertex" m = false ->
                           Str.contains "fragment" m = false -> parse_line st m = st).
  { intros st m Hm Hv Hf. unfold parse_line. unfold is_marker in Hm.
    now rewrite Hm, Hv, Hf. }
  split; [exact H | split; [| reflexivity]].
  intros before rest m Hm Hv Hf. unfold split.
  rewrite !parse_lines_app. cbn [parse_lines fold_left].
  now rewrite H.
Qed.

Lemma unrecognized_marker_ignored_C6_witness :
  parse_line (mkParse VERTEX "a" "") "#shader geometry" = mkParse VERTEX "a" ""
  /\ split (["#shader fragment"; "x"] ++ "#shader geometry" :: ["y"])
     = split (["#shader fragment"; "x"] ++ ["y"]).
Proof.
  destruct unrecognized_marker_ignored_C6 as (H1 & H2 & _). split.
  - apply H1; reflexivity.
  - apply H2; reflexivity.
Defined.

(** C7. While the section is still [NONE] no line reaches a buffer: lines
    before the first recognized marker do not show in the split. *)
Theorem lines_before_first_marker_dropped_C7 :
  (forall (st : ParseState) (l : string),
      ptype st = NONE ->
      ss0 (parse_line st l) = ss0 st /\ ss1 (parse_line st l) = ss1 st)
  /\ (forall before : list string,
         Forall (fun l => recognized l = false) before <->
         ptype (parse_lines before parse_init) = NONE)
  /\ (forall before rest : list string,
         ptype (parse_lines before parse_init) = NONE ->
         split before = mkSource "" "" /\ split (before ++ rest) = split rest)
  /\ split ["foo"; "#shader vertex"; "bar"] = mkSource ("bar" ++ Str.endl) "".
Proof.
  assert (Hiff : forall before : list string,
             Forall (fun l => recognized l = false) before <->
             ptype (parse_lines before parse_init) = NONE).
  { intros before.
    rewrite (parse_lines_tagged before [] parse_init) by reflexivity.
    cbn [ptype app]. unfold active_section.
    split.
    - intros H. destruct (List.find recognized (rev before)) as [m|] eqn:E; [|reflexivity].
      apply find_some in E as [Hin Hm]. apply in_rev in Hin.
      rewrite Forall_forall in H. now rewrite (H m Hin) in Hm.
    - intros H. destruct (List.find recognized (rev before)) as [m|] eqn:E.
      + unfold marker_section in H. now destruct (Str.contains "vertex" m).
      + apply Forall_forall. intros l Hl.
        apply (find_none _ _ E). now apply in_rev in Hl. }
  split; [|split; [exact Hiff | split; [|reflexivity]]].
  - intros st l H. rewrite parse_line_spec, H. cbn [ss0 ss1].
    now destruct (is_marker l); rewrite !append_nil_r.
  - intros before rest H. apply Hiff in H. unfold split, parse_init.
    rewrite parse_lines_app, !parse_none by exact H. split; reflexivity.
Qed.

Lemma lines_before_first_marker_dropped_C7_witness :
  (ss0 (parse_line parse_init "foo") = "" /\ ss1 (parse_line parse_init "foo") = "")
  /\ split (["foo"; "#shader geometry"] ++ ["#shader vertex"; "bar"])
     = split ["#shader vertex"; "bar"].
Proof.
  destruct lines_before_first_marker_dropped_C7 as (H1 & _ & H3 & _). split.
  - apply (H1 parse_init "foo"). reflexivity.
  - apply H3. reflexivity.
Defined.

(** C8. A file that cannot be opened gives two empty buffers, and so does
    a readable file none of whose lines is a marker. *)
Theorem ParseShader_unreadable_C8 (fs : FileSystem) (filePath : string) :
  (ifstream_open fs filePath = None ->
   ParseShader fs filePath = mkSource "" "")
  /\ (forall content : string,
         ifstream_open fs filePath = Some content ->
         Forall (fun l => is_marker l = false) (Str.getlines content) ->
         ParseShader fs filePath = mkSource "" "").
Proof.
  unfold ParseShader, ParseStream. split.
  - intros ->. reflexivity.
  - intros content -> H. unfold stream_lines, split, parse_init.
    rewrite parse_none; [reflexivity|].
    revert H. apply Forall_impl. intros l Hl. unfold recognized. now rewrite Hl.
Qed.

Lemma ParseShader_unreadable_C8_witness :
  ParseShader Demo.no_files "res/shaders/Basic.shader" = mkSource "" ""
  /\ ParseShader (Demo.fs_of (join_lines ["void main(){}"; ""]))
                 "res/shaders/Basic.shader" = mkSource "" "".
Proof.
  split.
  - apply (proj1 (ParseShader_unreadable_C8 Demo.no_files "res/shaders/Basic.shader")).
    reflexivity.
  - apply (proj2 (ParseShader_unreadable_C8
                    (Demo.fs_of (join_lines ["void main(){}"; ""]))
                    "res/shaders/Basic.shader")
             (join_lines ["void main(){}"; ""])).
    + reflexivity.
    + vm_compute. repeat constructor.
Defined.

End ParseShaderProperties.

(** ** Running the program *)

Section Runs.

Variable env : Env.

Local Open Scope string_scope.

(** Unfolds the state passing of straight-line code. *)
Ltac run :=
  repeat progress
    (unfold mbind, mret, call, call_text, cout_str, cout_endl, cout_hex, cout_uint;
     cbn [fst snd calls errors cout otext ohex]).

Lemma CompileShader_failed (type : Z) (source : string) (w : World) :
  compile_status env (calls w) type source = 0%Z ->
  fst (CompileShader env type source w) = 0%Z
  /\ calls (snd (CompileShader env type source w))
     = (calls w ++ failed_calls env (calls w) type source)%list
  /\ otext (cout (snd (CompileShader env type source w)))
     = otext (cout w) ++ "Failed to compile "
       ++ (if (type =? GL_VERTEX_SHADER)%Z then "vertex" else "fragment")
       ++ " shader." ++ Str.endl
       ++ info_log env (calls w) type source ++ Str.endl
  /\ ohex (cout (snd (CompileShader env type source w))) = ohex (cout w).
Proof.
  unfold compile_status, failed_calls, info_log, info_log_length, submit_calls, shader_id.
  intros Hs. unfold CompileShader. run.
  rewrite <- !app_assoc. cbn [app]. rewrite Hs. cbn [Z.eqb]. run.
  rewrite <- !app_assoc. cbn [app]. rewrite !append_assoc.
  repeat split; reflexivity.
Qed.

Lemma CompileShader_compiled (type : Z) (source : string) (w : World) :
  compile_status env (calls w) type source <> 0%Z ->
  fst (CompileShader env type source w) = shader_id env (calls w) type
  /\ calls (snd (CompileShader env type source w))
     = (calls w ++ compiled_calls env (calls w) type source)%list
  /\ cout (snd (CompileShader env type source w)) = cout w.
Proof.
  unfold compile_status, compiled_calls, submit_calls, shader_id.
  intros Hs. unfold CompileShader. run.
  rewrite <- !app_assoc. cbn [app]. apply Z.eqb_neq in Hs. rewrite Hs. run.
  repeat split; reflexivity.
Qed.

(** Every run of [CompileShader] starts by creating a shader object of
    the stage asked for. *)
Lemma CompileShader_calls (type : Z) (source : string) (w : World) :
  exists more : list Call,
    calls (snd (CompileShader env type source w))
    = (calls w ++ glCreateShader type :: more)%list.
Proof.
  destruct (Z.eq_dec (compile_status env (calls w) type source) 0) as [H|H].
  - apply CompileShader_failed in H as (_ & -> & _). eexists. reflexivity.
  - apply CompileShader_compiled in H as (_ & -> & _). eexists. reflexivity.
Qed.

(** C3. When the compile status is [0], [CompileShader] asks for the
    length of the info log and for the log, prints which stage failed and
    the log, deletes the shader object and returns [0] to its caller;
    otherwise it returns the handle of the shader object, which it does
    not delete, and prints nothing. *)
Theorem CompileShader_status_C3 (k : StageKind) (source : string) (w : World) :
  let type := stage_enum k in
  let id := shader_id env (calls w) type in
  let w' := snd (CompileShader env type source w) in
  (compile_status env (calls w) type source = 0%Z ->
   fst (CompileShader env type source w) = 0%Z
   /\ calls w'
      = (calls w ++ submit_calls env (calls w) type source
           ++ [glGetShaderiv id GL_COMPILE_STATUS;
               glGetShaderiv id GL_INFO_LOG_LENGTH;
               glGetShaderInfoLog id (info_log_length env (calls w) type source);
               glDeleteShader id])%list
   /\ otext (cout w')
      = otext (cout w) ++ "Failed to compile " ++ stage_word k ++ " shader."
        ++ Str.endl ++ info_log env (calls w) type source ++ Str.endl)
  /\ (compile_status env (calls w) type source <> 0%Z ->
      fst (CompileShader env type source w) = id
      /\ calls w'
         = (calls w ++ submit_calls env (calls w) type source
              ++ [glGetShaderiv id GL_COMPILE_STATUS])%list
      /\ ~ In (glDeleteShader id)
              (submit_calls env (calls w) type source
                 ++ [glGetShaderiv id GL_COMPILE_STATUS])
      /\ cout w' = cout w).
Proof.
  intros type id w'. subst type id w'. split; intros Hs.
  - destruct (CompileShader_failed (stage_enum k) source w Hs) as (Hr & Hc & Ho & _).
    repeat split; [exact Hr | exact Hc |].
    rewrite Ho. now destruct k.
  - destruct (CompileShader_compiled (stage_enum k) source w Hs) as (Hr & Hc & Ho).
    repeat split; [exact Hr | exact Hc | | exact Ho].
    cbn. intros [H|[H|[H|[H|[]]]]]; discriminate H.
Qed.

Lemma CreateShader_run (vertexShader fragmentShader : string) (w : World) :
  let program := ret env (calls w) glCreateProgram in
  let w1 := snd (call env glCreateProgram w) in
  let vs := fst (CompileShader env GL_VERTEX_SHADER vertexShader w1) in
  let w2 := snd (CompileShader env GL_VERTEX_SHADER vertexShader w1) in
  let fs := fst (CompileShader env GL_FRAGMENT_SHADER fragmentShader w2) in
  let w3 := snd (CompileShader env GL_FRAGMENT_SHADER fragmentShader w2) in
  fst (CreateShader env vertexShader fragmentShader w) = program
  /\ calls (snd (CreateShader env vertexShader fragmentShader w))
     = (calls w3 ++ [glAttachShader program vs; glAttachShader program fs;
                     glLinkProgram program; glValidateProgram program;
                     glDeleteShader vs; glDeleteShader fs])%list
  /\ cout (snd (CreateShader env vertexShader fragmentShader w)) = cout w3.
Proof.
  intros program w1 vs w2 fs w3.
  subst w3 fs w2 vs w1 program. unfold CreateShader. run.
  destruct (CompileShader env GL_VERTEX_SHADER vertexShader _) as [vs w2].
  cbn [fst snd].
  destruct (CompileShader env GL_FRAGMENT_SHADER fragmentShader w2) as [fs w3].
  cbn [fst snd calls errors cout]. rewrite <- !app_assoc. repeat split.
Qed.

Lemma CreateShader_links (vertexShader fragmentShader : string) (w : World) :
  existsb is_glLinkProgram (calls (snd (CreateShader env vertexShader fragmentShader w)))
  = true.
Proof.
  destruct (CreateShader_run vertexShader fragmentShader w) as (_ & -> & _).
  rewrite existsb_app. cbn. apply orb_true_r.
Qed.

(** C5. [CreateShader] creates the program, compiles the vertex source
    and then, whatever came of it, the fragment source, attaches both
    results (the handle [0] of a failed compile included), links,
    validates, asks for no status, deletes both stage handles and returns
    the program handle. *)
Theorem CreateShader_sequence_C5 (vertexShader fragmentShader : string) (w : World) :
  let program := ret env (calls w) glCreateProgram in
  let w1 := snd (call env glCreateProgram w) in
  let vs := fst (CompileShader env GL_VERTEX_SHADER vertexShader w1) in
  let w2 := snd (CompileShader env GL_VERTEX_SHADER vertexShader w1) in
  let fs := fst (CompileShader env GL_FRAGMENT_SHADER fragmentShader w2) in
  let w3 := snd (CompileShader env GL_FRAGMENT_SHADER fragmentShader w2) in
  let w' := snd (CreateShader env vertexShader fragmentShader w) in
  fst (CreateShader env vertexShader fragmentShader w) = program
  /\ calls w1 = (calls w ++ [glCreateProgram])%list
  /\ (exists more, calls w2 = (calls w1 ++ glCreateShader GL_VERTEX_SHADER :: more)%list)
  /\ (exists more, calls w3 = (calls w2 ++ glCreateShader GL_FRAGMENT_SHADER :: more)%list)
  /\ calls w'
     = (calls w3 ++ [glAttachShader program vs; glAttachShader program fs;
                     glLinkProgram program; glValidateProgram program;
                     glDeleteShader vs; glDeleteShader fs])%list
  /\ cout w' = cout w3
  /\ (compile_status env (calls w1) GL_VERTEX_SHADER vertexShader = 0%Z ->
      vs = 0%Z /\ In (glAttachShader program 0) (calls w'))
  /\ (compile_status env (calls w2) GL_FRAGMENT_SHADER fragmentShader = 0%Z ->
      fs = 0%Z /\ In (glAttachShader program 0) (calls w')).
Proof.
  intros program w1 vs w2 fs w3 w'.
  destruct (CreateShader_run vertexShader fragmentShader w) as (Hp & Hcalls & Hout).
  fold program w1 vs w2 fs w3 w' in Hp, Hcalls, Hout.
  split; [exact Hp|]. split; [reflexivity|].
  split; [apply CompileShader_calls|]. split; [apply CompileShader_calls|].
  split; [exact Hcalls|]. split; [exact Hout|].
  split; intros Hs.
  - apply CompileShader_failed in Hs as (Hr & _). fold vs in Hr.
    split; [exact Hr|]. rewrite Hcalls, Hr. apply in_or_app. right. now left.
  - apply CompileShader_failed in Hs as (Hr & _). fold fs in Hr.
    split; [exact Hr|]. rewrite Hcalls, Hr. apply in_or_app. right. right. now left.
Qed.

(** *** The error pollers *)

Lemma repeat_snoc (c : Call) (n : nat) :
  (repeat c n ++ [c])%list = c :: repeat c n.
Proof. induction n as [|n IH]; cbn; [reflexivity | now rewrite IH]. Qed.

Lemma GLClearError_loop_run (q : list positive) :
  forall (fuel : nat) (w : World),
    errors w = q -> (length q < fuel)%nat ->
    GLClearError_loop fuel w
    = (tt, mkWorld (calls w ++ repeat glGetError (S (length q))) [] (cout w)).
Proof.
  induction q as [|e q IH]; intros [|fuel] [c q0 o] Hq Hfuel;
    cbn in Hq, Hfuel; subst q0; try lia.
  - reflexivity.
  - cbn [GLClearError_loop]. unfold mbind at 1, call_glGetError.
    cbn [errors calls cout]. cbn [Z.eqb GL_NO_ERROR negb].
    rewrite IH by (cbn; (reflexivity || lia)).
    cbn [calls cout length]. rewrite <- app_assoc. reflexivity.
Qed.

Lemma GLCheckError_loop_run (q : list positive) :
  forall (fuel : nat) (w : World),
    errors w = q -> (length q < fuel)%nat ->
    GLCheckError_loop fuel w
    = (tt, mkWorld (calls w ++ repeat glGetError (S (length q))) []
             (mkOstream (otext (cout w) ++ error_reports q)
                        (match q with [] => ohex (cout w) | _ => true end))).
Proof.
  induction q as [|e q IH]; intros [|fuel] [c q0 [t h]] Hq Hfuel;
    cbn in Hq, Hfuel; subst q0; try lia.
  - cbn. now rewrite append_nil_r.
  - cbn [GLCheckError_loop]. unfold mbind at 1, call_glGetError.
    cbn [errors calls cout]. cbn [Z.eqb negb]. run.
    rewrite IH by (cbn; (reflexivity || lia)).
    cbn [calls cout otext ohex length error_reports hex_digits].
    unfold error_report. rewrite <- app_assoc, !append_assoc.
    now destruct q.
Qed.

Lemma GLClearError_run (w : World) :
  GLClearError w
  = (tt, mkWorld (calls w ++ repeat glGetError (S (length (errors w)))) [] (cout w)).
Proof. unfold GLClearError. apply GLClearError_loop_run; [reflexivity | lia]. Qed.

Lemma GLCheckError_run (w : World) :
  GLCheckError w
  = (tt, mkWorld (calls w ++ repeat glGetError (S (length (errors w)))) []
           (mkOstream (otext (cout w) ++ error_reports (errors w))
                      (match errors w with [] => ohex (cout w) | _ => true end))).
Proof. unfold GLCheckError. apply GLCheckError_loop_run; [reflexivity | lia]. Qed.

(** The calls and the output of one frame: the pending errors are cleared
    before the draw call, those the draw call raises are reported after
    it. *)
Lemma frame_run (window : Z) (w : World) :
  let clear := glClear GL_COLOR_BUFFER_BIT in
  let draw := glDrawElements GL_TRIANGLES 6 GL_INT 0 in
  let stale := (errors w ++ raises env (calls w) clear)%list in
  let h := (calls w ++ clear :: repeat glGetError (S (length stale)))%list in
  let raised := raises env h draw in
  calls (snd (frame env window w))
  = (h ++ draw :: repeat glGetError (S (length raised))
       ++ [glfwSwapBuffers window; glfwPollEvents])%list
  /\ otext (cout (snd (frame env window w)))
     = otext (cout w) ++ error_reports raised.
Proof.
  intros clear draw stale h raised. subst raised h stale draw clear.
  unfold frame. run. rewrite GLClearError_run. cbn [calls errors cout app].
  rewrite GLCheckError_run. cbn [calls errors cout app].
  run. rewrite <- !app_assoc. cbn [app]. split; reflexivity.
Qed.

Lemma frame_grows (window : Z) (w : World) :
  exists more, calls (snd (frame env window w)) = (calls w ++ more)%list.
Proof.
  destruct (frame_run window w) as [-> _]. rewrite <- app_assoc.
  eexists. reflexivity.
Qed.

Lemma render_loop_grows (fuel : nat) (window : Z) :
  forall w : World,
    exists more, calls (snd (render_loop env fuel window w)) = (calls w ++ more)%list.
Proof.
  induction fuel as [|fuel IH]; intros w.
  - exists []. cbn. now rewrite app_nil_r.
  - cbn [render_loop]. unfold mbind at 1. unfold call at 1.
    destruct (ret env (calls w) (glfwWindowShouldClose window) =? 0)%Z.
    + unfold mbind at 1.
      destruct (frame_grows window
                  (mkWorld (calls w ++ [glfwWindowShouldClose window])
                     (errors w ++ raises env (calls w) (glfwWindowShouldClose window))
                     (cout w))) as [m1 H1].
      destruct (frame env window _) as [[] w1]. cbn [snd calls] in H1.
      destruct (IH w1) as [m2 H2]. rewrite H2, H1, <- !app_assoc.
      eexists. reflexivity.
    + cbn. eexists. reflexivity.
Qed.

(** C9, as the code has it.  [GLCheckError] empties the queue of pending
    errors, asking [glGetError] once per pending code and once more, and
    prints each code in hexadecimal; it touches nothing else and returns.
    The macro [GLCall(x)] is [x] alone when [DEBUG] is not defined.  The
    draw call of [main] is not wrapped in [GLCall]: in every build a frame
    calls [GLClearError] before [glDrawElements] and [GLCheckError] after
    it, which reports the errors the draw call raised. *)
Theorem GLCheckError_polling_C9 (w : World) :
  GLCheckError w
  = (tt, mkWorld (calls w ++ repeat glGetError (S (length (errors w)))) []
           (mkOstream (otext (cout w) ++ error_reports (errors w))
                      (match errors w with [] => ohex (cout w) | _ => true end)))
  /\ (forall fuel : nat,
         (length (errors w) < fuel)%nat -> GLCheckError_loop fuel w = GLCheckError w)
  /\ (DEBUG env = false ->
      forall assert_GLLogCall x : M unit, GLCall env assert_GLLogCall x = x)
  /\ (forall window : Z,
         let clear := glClear GL_COLOR_BUFFER_BIT in
         let draw := glDrawElements GL_TRIANGLES 6 GL_INT 0 in
         let stale := (errors w ++ raises env (calls w) clear)%list in
         let h := (calls w ++ clear :: repeat glGetError (S (length stale)))%list in
         let raised := raises env h draw in
         calls (snd (frame env window w))
         = (h ++ draw :: repeat glGetError (S (length raised))
              ++ [glfwSwapBuffers window; glfwPollEvents])%list
         /\ otext (cout (snd (frame env window w)))
            = otext (cout w) ++ error_reports raised).
Proof.
  split; [apply GLCheckError_run|]. split; [|split].
  - intros fuel Hfuel. rewrite GLCheckError_run.
    now apply GLCheckError_loop_run.
  - intros Hd a x. unfold GLCall. now rewrite Hd.
  - intros window. apply frame_run.
Qed.

(** *** main *)

Ltac exec :=
  cbv beta iota zeta delta
    [mbind mret call call_text cout_str cout_endl cout_hex cout_uint
     fst snd calls errors cout otext ohex negb];
  cbn [app].

(** Runs [main] up to the test of the parsed sources, where the driver
    let it come that far. *)
Ltac exec_setup Hinit Hwin Hsrc :=
  unfold main, main_from, world0; exec;
  destruct (ret env [] glfwInit =? 0)%Z eqn:Hinit; exec;
  [|destruct (ret env [glfwInit] (glfwCreateWindow 640 480 "Hello World" 0 0) =? 0)%Z
      eqn:Hwin; exec;
    [|match goal with
      | |- context [(?a =? GLEW_OK)%Z] => destruct (a =? GLEW_OK)%Z
      end; exec;
      destruct (Str.empty (VertexSource (ParseShader (files env) "res/shaders/Basic.shader"))
                || Str.empty (FragmentSource (ParseShader (files env) "res/shaders/Basic.shader")))
        eqn:Hsrc; exec]].

(** Runs [CreateShader] and the render loop, keeping what is known of the
    calls they make. *)
Ltac exec_rest HL HG :=
  match goal with
  | |- context [CreateShader env ?v ?f ?w] =>
      pose proof (CreateShader_links v f w) as HL;
      destruct (CreateShader env v f w) as [shader [c1 e1 o1]]
  end;
  match goal with
  | |- context [render_loop env ?n ?win ?w] =>
      destruct (render_loop_grows n win w) as [more HG];
      destruct (render_loop env n win w) as [[|] [c2 e2 o2]]
  end;
  cbn [snd calls] in HL, HG.

(** C10. When [main] returns [-1], as it does at the test of the parsed
    sources when one of them is empty, no call that creates, builds or
    binds a program or a shader stage has been made. *)
Theorem main_abort_before_CreateShader_C10 (fuel : nat) :
  let src := ParseShader (files env) "res/shaders/Basic.shader" in
  (ret env [] glfwInit <> 0%Z ->
   ret env [glfwInit] (glfwCreateWindow 640 480 "Hello World" 0 0) <> 0%Z ->
   Str.empty (VertexSource src) || Str.empty (FragmentSource src) = true ->
   fst (main env fuel) = Some (-1)%Z)
  /\ (fst (main env fuel) = Some (-1)%Z ->
      Forall (fun c => shader_call c = false) (calls (snd (main env fuel)))).
Proof.
  intros src; subst src. split.
  - intros Hi Hw Hs. apply Z.eqb_neq in Hi, Hw.
    exec_setup Hinit Hwin Hsrc; congruence.
  - exec_setup Hinit Hwin Hsrc; try solve [intros _; repeat constructor];
      exec_rest HL HG; discriminate.
Qed.

(** C2, as the code has it.  Once the window exists, [main] returns [-1]
    as soon as one of the two parsed sources is empty, be it the vertex
    source, the fragment source or both, and no program is linked; it goes
    on to [CreateShader], which links, only when both are non-empty. *)
Theorem main_rejects_empty_source_C2 (fuel : nat) :
  let src := ParseShader (files env) "res/shaders/Basic.shader" in
  ret env [] glfwInit <> 0%Z ->
  ret env [glfwInit] (glfwCreateWindow 640 480 "Hello World" 0 0) <> 0%Z ->
  (Str.empty (VertexSource src) || Str.empty (FragmentSource src) = true ->
   fst (main env fuel) = Some (-1)%Z
   /\ existsb is_glLinkProgram (calls (snd (main env fuel))) = false)
  /\ (Str.empty (VertexSource src) || Str.empty (FragmentSource src) = false ->
      fst (main env fuel) <> Some (-1)%Z
      /\ existsb is_glLinkProgram (calls (snd (main env fuel))) = true).
Proof.
  intros src Hi Hw; subst src. apply Z.eqb_neq in Hi, Hw. split; intros Hs.
  - exec_setup Hinit Hwin Hsrc; try congruence; split; reflexivity.
  - exec_setup Hinit Hwin Hsrc; try congruence;
      exec_rest HL HG; (split; [discriminate|]);
      rewrite ?existsb_app, HG, !existsb_app, HL; reflexivity.
Qed.

(** *** More about the pollers, CompileShader and CreateShader *)

(** X8. [GLClearError] empties the queue of pending errors without
    printing: it asks [glGetError] once per pending code and once more,
    and leaves [std::cout] as it was. *)
Theorem GLClearError_drains (w : World) :
  GLClearError w
  = (tt, mkWorld (calls w ++ repeat glGetError (S (length (errors w)))) [] (cout w))
  /\ (forall fuel : nat,
         (length (errors w) < fuel)%nat -> GLClearError_loop fuel w = GLClearError w).
Proof.
  split; [apply GLClearError_run|]. intros fuel Hfuel.
  rewrite GLClearError_run. now apply GLClearError_loop_run.
Qed.

Lemma GLClearError_drains_witness :
  GLClearError_loop 3 (mkWorld [] [1280%positive; 1281%positive] (mkOstream "" false))
  = GLClearError (mkWorld [] [1280%positive; 1281%positive] (mkOstream "" false)).
Proof.
  apply (proj2 (GLClearError_drains
                  (mkWorld [] [1280%positive; 1281%positive] (mkOstream "" false)))).
  cbn. lia.
Defined.

(** X9. Once a poller has run, [GLCheckError] finds nothing to report:
    after [GLClearError], and after [GLCheckError] itself, it asks
    [glGetError] once and prints nothing. *)
Theorem GLCheckError_after_poller (w : World) :
  GLCheckError (snd (GLClearError w))
  = (tt, mkWorld (calls (snd (GLClearError w)) ++ [glGetError]) [] (cout w))
  /\ GLCheckError (snd (GLCheckError w))
     = (tt, mkWorld (calls (snd (GLCheckError w)) ++ [glGetError]) []
              (cout (snd (GLCheckError w)))).
Proof.
  rewrite GLClearError_run, (GLCheckError_run w). cbn [snd].
  rewrite !GLCheckError_run. cbn [calls errors cout otext ohex length repeat error_reports].
  rewrite !append_nil_r. destruct (cout w) as [t h]. split; reflexivity.
Qed.

Lemma c_str_app_nul (a b : string) :
  no_nul a = true -> Str.c_str (a ++ String zero b) = a.
Proof.
  induction a as [|c a IH]; intros Ha; [reflexivity|].
  cbn in Ha. apply andb_prop in Ha as [Hc Ha].
  cbn [append Str.c_str]. destruct (Ascii.eqb c zero); [discriminate|].
  now rewrite IH.
Qed.

Lemma c_str_no_nul (a : string) : no_nul a = true -> Str.c_str a = a.
Proof.
  induction a as [|c a IH]; intros Ha; [reflexivity|].
  cbn in Ha. apply andb_prop in Ha as [Hc Ha].
  cbn [Str.c_str]. destruct (Ascii.eqb c zero); [discriminate|].
  now rewrite IH.
Qed.

Lemma c_str_idem (s : string) : Str.c_str (Str.c_str s) = Str.c_str s.
Proof.
  induction s as [|c s IH]; [reflexivity|]. cbn [Str.c_str].
  destruct (Ascii.eqb c zero) eqn:Hc; [reflexivity|].
  cbn [Str.c_str]. now rewrite Hc, IH.
Qed.

(** X10. [CompileShader] hands the driver the source up to its first NUL
    character only: what follows a NUL in the source has no effect on the
    run. *)
Theorem CompileShader_stops_at_NUL (type : Z) (w : World) :
  (forall source : string,
      CompileShader env type source w = CompileShader env type (Str.c_str source) w)
  /\ (forall a b : string,
         no_nul a = true ->
         CompileShader env type (a ++ String zero b) w = CompileShader env type a w).
Proof.
  split.
  - intros source. unfold CompileShader. now rewrite c_str_idem.
  - intros a b Ha. unfold CompileShader.
    now rewrite c_str_app_nul, c_str_no_nul.
Qed.

(** The result, the calls and the output of [CompileShader], by compile
    status. *)
Lemma CompileShader_cases (type : Z) (source : string) (w : World) :
  let status := compile_status env (calls w) type source in
  fst (CompileShader env type source w)
  = (if (status =? 0)%Z then 0%Z else shader_id env (calls w) type)
  /\ calls (snd (CompileShader env type source w))
     = (calls w ++ if (status =? 0)%Z then failed_calls env (calls w) type source
                   else compiled_calls env (calls w) type source)%list
  /\ otext (cout (snd (CompileShader env type source w)))
     = otext (cout w)
       ++ (if (status =? 0)%Z
           then diagnostic (if (type =? GL_VERTEX_SHADER)%Z then "vertex" else "fragment")
                           (info_log env (calls w) type source)
           else "")
  /\ ohex (cout (snd (CompileShader env type source w))) = ohex (cout w).
Proof.
  intros status. subst status.
  destruct (Z.eqb_spec (compile_status env (calls w) type source) 0) as [H|H].
  - destruct (CompileShader_failed type source w H) as (Hr & Hc & Ho & Hh).
    repeat split; assumption.
  - destruct (CompileShader_compiled type source w H) as (Hr & Hc & Ho).
    rewrite Ho, append_nil_r. repeat split; assumption.
Qed.


Lemma count_app (f : Call -> bool) (a b : list Call) :
  count f (a ++ b) = (count f a + count f b)%nat.
Proof. unfold count. now rewrite filter_app, length_app. Qed.

Lemma count_repeat_glGetError (f : Call -> bool) (n : nat) :
  f glGetError = false -> count f (repeat glGetError n) = 0%nat.
Proof.
  intros Hf. unfold count. induction n as [|n IH]; [reflexivity|].
  cbn [repeat filter]. now rewrite Hf.
Qed.

Lemma count_none (f g : Call -> bool) (l : list Call) :
  (forall c, g c = true -> f c = false) ->
  Forall (fun c => g c = true) l -> count f l = 0%nat.
Proof.
  intros Hfg. unfold count. induction 1 as [|c l Hc _ IH]; [reflexivity|].
  cbn [filter]. now rewrite (Hfg c Hc).
Qed.

(** The calls [CreateShader] adds to the history. *)
Lemma CreateShader_added (vertexShader fragmentShader : string) (w : World) :
  let program := ret env (calls w) glCreateProgram in
  let w1 := snd (call env glCreateProgram w) in
  let w2 := snd (CompileShader env GL_VERTEX_SHADER vertexShader w1) in
  let sv := compile_status env (calls w1) GL_VERTEX_SHADER vertexShader in
  let sf := compile_status env (calls w2) GL_FRAGMENT_SHADER fragmentShader in
  let vs := if (sv =? 0)%Z then 0%Z else shader_id env (calls w1) GL_VERTEX_SHADER in
  let fs := if (sf =? 0)%Z then 0%Z else shader_id env (calls w2) GL_FRAGMENT_SHADER in
  calls (snd (CreateShader env vertexShader fragmentShader w))
  = (calls w
       ++ glCreateProgram
       :: (if (sv =? 0)%Z then failed_calls env (calls w1) GL_VERTEX_SHADER vertexShader
           else compiled_calls env (calls w1) GL_VERTEX_SHADER vertexShader)
       ++ (if (sf =? 0)%Z then failed_calls env (calls w2) GL_FRAGMENT_SHADER fragmentShader
           else compiled_calls env (calls w2) GL_FRAGMENT_SHADER fragmentShader)
       ++ [glAttachShader program vs; glAttachShader program fs;
           glLinkProgram program; glValidateProgram program;
           glDeleteShader vs; glDeleteShader fs])%list.
Proof.
  intros program w1 w2 sv sf vs fs.
  destruct (CreateShader_run vertexShader fragmentShader w) as (_ & Hc & _).
  fold program w1 w2 in Hc. rewrite Hc.
  destruct (CompileShader_cases GL_FRAGMENT_SHADER fragmentShader w2) as (Hrf & Hcf & _).
  destruct (CompileShader_cases GL_VERTEX_SHADER vertexShader w1) as (Hrv & Hcv & _).
  fold w2 in Hcv. fold sv in Hrv, Hcv. fold sf in Hrf, Hcf. fold vs in Hrv. fold fs in Hrf.
  rewrite Hrf, Hrv, Hcf, Hcv. unfold w1, call. cbn [snd calls].
  rewrite <- !app_assoc. reflexivity.
Qed.

(** X12. [CreateShader] creates two shader objects and deletes two plus
    one for each failed compile; when the driver hands out two distinct
    non-zero handles, each of them is deleted exactly once, whether its
    compile failed or not. *)
Theorem CreateShader_deletes_each_once (vertexShader fragmentShader : string) (w : World) :
  let w1 := snd (call env glCreateProgram w) in
  let w2 := snd (CompileShader env GL_VERTEX_SHADER vertexShader w1) in
  let sv := compile_status env (calls w1) GL_VERTEX_SHADER vertexShader in
  let sf := compile_status env (calls w2) GL_FRAGMENT_SHADER fragmentShader in
  let idv := shader_id env (calls w1) GL_VERTEX_SHADER in
  let idf := shader_id env (calls w2) GL_FRAGMENT_SHADER in
  exists added : list Call,
    calls (snd (CreateShader env vertexShader fragmentShader w)) = (calls w ++ added)%list
    /\ count is_glCreateShader added = 2%nat
    /\ count is_glDeleteShader added
       = (2 + (if (sv =? 0)%Z then 1 else 0) + (if (sf =? 0)%Z then 1 else 0))%nat
    /\ (idv <> 0%Z -> idf <> 0%Z -> idv <> idf ->
        count (deletes idv) added = 1%nat /\ count (deletes idf) added = 1%nat).
Proof.
  intros w1 w2 sv sf idv idf. eexists. split; [apply CreateShader_added|].
  fold w1 w2 sv sf. unfold failed_calls, compiled_calls, submit_calls. fold idv idf.
  split; [|split].
  - destruct (sv =? 0)%Z, (sf =? 0)%Z; reflexivity.
  - destruct (sv =? 0)%Z, (sf =? 0)%Z; reflexivity.
  - intros Hv Hf Hvf.
    assert (Evv : (idv =? idv)%Z = true) by apply Z.eqb_refl.
    assert (Eff : (idf =? idf)%Z = true) by apply Z.eqb_refl.
    assert (Evf : (idv =? idf)%Z = false) by now apply Z.eqb_neq.
    assert (Efv : (idf =? idv)%Z = false) by (apply Z.eqb_neq; congruence).
    assert (E0v : (0 =? idv)%Z = false) by (apply Z.eqb_neq; congruence).
    assert (E0f : (0 =? idf)%Z = false) by (apply Z.eqb_neq; congruence).
    destruct (sv =? 0)%Z, (sf =? 0)%Z; unfold count; cbn [app filter deletes];
      rewrite ?Evv, ?Eff, ?Evf, ?Efv, ?E0v, ?E0f; split; reflexivity.
Qed.

(** X13. [CreateShader] prints the diagnostic of the vertex stage, if
    its compile failed, then that of the fragment stage, if its compile
    failed, and nothing else; it prints nothing when both compile. *)
Theorem CreateShader_output (vertexShader fragmentShader : string) (w : World) :
  let w1 := snd (call env glCreateProgram w) in
  let w2 := snd (CompileShader env GL_VERTEX_SHADER vertexShader w1) in
  let sv := compile_status env (calls w1) GL_VERTEX_SHADER vertexShader in
  let sf := compile_status env (calls w2) GL_FRAGMENT_SHADER fragmentShader in
  otext (cout (snd (CreateShader env vertexShader fragmentShader w)))
  = otext (cout w)
    ++ (if (sv =? 0)%Z
        then diagnostic "vertex" (info_log env (calls w1) GL_VERTEX_SHADER vertexShader)
        else "")
    ++ (if (sf =? 0)%Z
        then diagnostic "fragment" (info_log env (calls w2) GL_FRAGMENT_SHADER fragmentShader)
        else "")
  /\ ohex (cout (snd (CreateShader env vertexShader fragmentShader w))) = ohex (cout w).
Proof.
  intros w1 w2 sv sf.
  destruct (CreateShader_run vertexShader fragmentShader w) as (_ & _ & Ho).
  fold w1 w2 in Ho. rewrite Ho.
  destruct (CompileShader_cases GL_FRAGMENT_SHADER fragmentShader w2) as (_ & _ & Hof & Hhf).
  destruct (CompileShader_cases GL_VERTEX_SHADER vertexShader w1) as (_ & _ & Hov & Hhv).
  fold w2 in Hov, Hhv. fold sv in Hov. fold sf in Hof.
  rewrite Hof, Hhf, Hov, Hhv. change (GL_VERTEX_SHADER =? GL_VERTEX_SHADER)%Z with true.
  change (GL_FRAGMENT_SHADER =? GL_VERTEX_SHADER)%Z with false.
  rewrite append_assoc. split; reflexivity.
Qed.

(** X14. [CreateShader] makes shader and program calls only: it never
    asks [glGetError] and never touches a buffer or the window. *)
Theorem CreateShader_only_shader_calls (vertexShader fragmentShader : string) (w : World) :
  exists added : list Call,
    calls (snd (CreateShader env vertexShader fragmentShader w)) = (calls w ++ added)%list
    /\ Forall (fun c => shader_call c = true) added.
Proof.
  eexists. split; [apply CreateShader_added|].
  unfold failed_calls, compiled_calls, submit_calls.
  destruct (_ =? 0)%Z, (_ =? 0)%Z; repeat constructor.
Qed.

(** *** More about the render loop and main *)

Lemma frame_calls_count (f : Call -> bool) (a b : Call) (t : list Call) (n1 n2 : nat) :
  f glGetError = false ->
  count f ((a :: repeat glGetError n1) ++ b :: repeat glGetError n2 ++ t)
  = (count f [a] + count f [b] + count f t)%nat.
Proof.
  intros Hf.
  replace ((a :: repeat glGetError n1) ++ b :: repeat glGetError n2 ++ t)%list
    with ([a] ++ repeat glGetError n1 ++ [b] ++ repeat glGetError n2 ++ t)%list
    by reflexivity.
  rewrite !count_app, !count_repeat_glGetError by exact Hf. lia.
Qed.

(** The calls one frame adds to the history. *)
Lemma frame_added (window : Z) (w : World) :
  exists added : list Call,
    calls (snd (frame env window w)) = (calls w ++ added)%list
    /\ Forall (fun c => loop_call c = true) added
    /\ count is_glClear added = 1%nat
    /\ count is_glDrawElements added = 1%nat
    /\ count is_glfwSwapBuffers added = 1%nat
    /\ count is_glfwPollEvents added = 1%nat
    /\ count is_glfwWindowShouldClose added = 0%nat.
Proof.
  destruct (frame_run window w) as [Hc _]. rewrite Hc, <- app_assoc.
  eexists. split; [reflexivity|].
  set (n1 := S (length (errors w ++ raises env (calls w) (glClear GL_COLOR_BUFFER_BIT)))).
  set (n2 := S (length (raises env _ (glDrawElements GL_TRIANGLES 6 GL_INT 0)))).
  clearbody n1 n2.
  assert (Hrep : forall n, Forall (fun c => loop_call c = true) (repeat glGetError n)).
  { intros n. apply Forall_forall. intros c Hc'. apply repeat_spec in Hc'. now subst c. }
  split.
  - apply Forall_cons; [reflexivity|]. apply Forall_app. split; [apply Hrep|].
    apply Forall_cons; [reflexivity|]. apply Forall_app. split; [apply Hrep|].
    repeat constructor.
  - rewrite !frame_calls_count by reflexivity. repeat split; reflexivity.
Qed.

(** One turn of the loop condition. *)
Lemma render_loop_S (fuel : nat) (window : Z) (w : World) :
  render_loop env (S fuel) window w
  = let w0 := mkWorld (calls w ++ [glfwWindowShouldClose window])
                (errors w ++ raises env (calls w) (glfwWindowShouldClose window))
                (cout w) in
    if (ret env (calls w) (glfwWindowShouldClose window) =? 0)%Z
    then render_loop env fuel window (snd (frame env window w0))
    else (true, w0).
Proof.
  cbn [render_loop]. unfold mbind at 1. unfold call at 1. cbv zeta.
  destruct (ret env (calls w) (glfwWindowShouldClose window) =? 0)%Z; [|reflexivity].
  unfold mbind at 1. now destruct (frame env window _) as [[] w1].
Qed.

(** The calls the render loop adds to the history. *)
Lemma render_loop_added (fuel : nat) (window : Z) :
  forall w : World,
    exists (added : list Call) (frames : nat),
      calls (snd (render_loop env fuel window w)) = (calls w ++ added)%list
      /\ Forall (fun c => loop_call c = true) added
      /\ count is_glDrawElements added = frames
      /\ count is_glfwSwapBuffers added = frames.
Proof.
  induction fuel as [|fuel IH]; intros w.
  - exists [], 0%nat. cbn [render_loop mret fst snd]. rewrite app_nil_r.
    repeat split; constructor.
  - rewrite render_loop_S. cbv zeta.
    destruct (ret env (calls w) (glfwWindowShouldClose window) =? 0)%Z.
    + destruct (frame_added window
                  (mkWorld (calls w ++ [glfwWindowShouldClose window])
                     (errors w ++ raises env (calls w) (glfwWindowShouldClose window))
                     (cout w))) as (a1 & H1 & F1 & _ & D1 & S1 & _).
      cbn [calls] in H1.
      destruct (IH (snd (frame env window
                  (mkWorld (calls w ++ [glfwWindowShouldClose window])
                     (errors w ++ raises env (calls w) (glfwWindowShouldClose window))
                     (cout w))))) as (a2 & n & H2 & F2 & D2 & S2).
      exists (glfwWindowShouldClose window :: a1 ++ a2)%list, (S n).
      rewrite H2, H1, <- !app_assoc. split; [reflexivity|]. split.
      * constructor; [reflexivity | now apply Forall_app].
      * change (glfwWindowShouldClose window :: a1 ++ a2)%list
          with ([glfwWindowShouldClose window] ++ a1 ++ a2)%list.
        rewrite !count_app, D1, D2, S1, S2. split; reflexivity.
    + exists [glfwWindowShouldClose window], 0%nat. cbn [fst snd calls].
      repeat split. repeat constructor.
Qed.

(** X15. The render loop makes loop calls only, and every frame it runs
    makes exactly one [glClear], one [glDrawElements], one
    [glfwSwapBuffers] and one [glfwPollEvents]; [glfwWindowShouldClose]
    is asked once per frame and once more when the loop ends. *)
Theorem render_loop_frames (fuel : nat) (window : Z) (w : World) :
  exists (added : list Call) (frames : nat),
    calls (snd (render_loop env fuel window w)) = (calls w ++ added)%list
    /\ Forall (fun c => loop_call c = true) added
    /\ count is_glClear added = frames
    /\ count is_glDrawElements added = frames
    /\ count is_glfwSwapBuffers added = frames
    /\ count is_glfwPollEvents added = frames
    /\ count is_glfwWindowShouldClose added
       = (if fst (render_loop env fuel window w) then S frames else frames)
    /\ (frames <= fuel)%nat
    /\ (fst (render_loop env fuel window w) = false -> frames = fuel).
Proof.
  revert w; induction fuel as [|fuel IH]; intros w.
  - exists [], 0%nat. cbn [render_loop mret fst snd]. rewrite app_nil_r.
    repeat split; constructor.
  - rewrite render_loop_S. cbv zeta.
    destruct (ret env (calls w) (glfwWindowShouldClose window) =? 0)%Z.
    + destruct (frame_added window
                  (mkWorld (calls w ++ [glfwWindowShouldClose window])
                     (errors w ++ raises env (calls w) (glfwWindowShouldClose window))
                     (cout w))) as (a1 & H1 & F1 & C1 & D1 & S1 & P1 & W1).
      cbn [calls] in H1.
      destruct (IH (snd (frame env window
                  (mkWorld (calls w ++ [glfwWindowShouldClose window])
                     (errors w ++ raises env (calls w) (glfwWindowShouldClose window))
                     (cout w)))))
        as (a2 & n & H2 & F2 & C2 & D2 & S2 & P2 & W2 & L2 & R2).
      exists ([glfwWindowShouldClose window] ++ a1 ++ a2)%list, (S n).
      rewrite H2, H1, <- !app_assoc. split; [reflexivity|]. split.
      * apply Forall_app. split; [repeat constructor|]. now apply Forall_app.
      * rewrite !count_app, C1, C2, D1, D2, S1, S2, P1, P2, W1, W2.
        unfold count. cbn [filter length is_glClear is_glDrawElements
                             is_glfwSwapBuffers is_glfwPollEvents
                             is_glfwWindowShouldClose].
        repeat split; try lia.
        -- destruct (fst (render_loop env fuel window _)); lia.
        -- intros Hf. f_equal. now apply R2.
    + exists [glfwWindowShouldClose window], 0%nat. cbn [fst snd calls].
      repeat split; try lia; try discriminate. repeat constructor.
Qed.

Lemma render_loop_mono (fuel : nat) (window : Z) :
  forall (w w' : World),
    render_loop env fuel window w = (true, w') ->
    forall k : nat, render_loop env (fuel + k) window w = (true, w').
Proof.
  induction fuel as [|fuel IH]; intros w w' H k; [discriminate H|].
  change (S fuel + k)%nat with (S (fuel + k)).
  rewrite render_loop_S in H |- *. cbv zeta in H |- *.
  destruct (ret env (calls w) (glfwWindowShouldClose window) =? 0)%Z; [|exact H].
  now apply IH.
Qed.

(** X16. [main] exits with status [0] or [-1] only, and its outcome does
    not depend on the frame bound: once it has returned within [fuel]
    frames, every larger bound gives the same status and the same final
    state. *)
Theorem main_exit_status (fuel : nat) :
  (fst (main env fuel) = Some 0%Z \/ fst (main env fuel) = Some (-1)%Z
   \/ fst (main env fuel) = None)
  /\ (forall (r : Z) (k : nat),
         fst (main env fuel) = Some r -> main env (fuel + k) = main env fuel).
Proof.
  split.
  - exec_setup Hinit Hwin Hsrc; auto; exec_rest HL HG; auto.
  - intros r k.
    exec_setup Hinit Hwin Hsrc; try solve [intros _; reflexivity];
      match goal with
      | |- context [CreateShader env ?v ?f ?w] =>
          destruct (CreateShader env v f w) as [shader [c1 e1 o1]]
      end;
      match goal with
      | |- context [render_loop env fuel ?win ?w] =>
          destruct (render_loop env fuel win w) as [[|] w2] eqn:E;
          [rewrite (render_loop_mono fuel win w w2 E k); intros _; reflexivity
          | exec; discriminate]
      end.
Qed.

Lemma CreateShader_facts (vertexShader fragmentShader : string) (w : World) :
  exists (added : list Call) (more : string),
    calls (snd (CreateShader env vertexShader fragmentShader w)) = (calls w ++ added)%list
    /\ Forall (fun c => shader_call c = true) added
    /\ existsb is_glLinkProgram added = true
    /\ otext (cout (snd (CreateShader env vertexShader fragmentShader w)))
       = otext (cout w) ++ more.
Proof.
  destruct (CreateShader_run vertexShader fragmentShader w) as (_ & _ & Ho).
  destruct (CompileShader_cases GL_FRAGMENT_SHADER fragmentShader
              (snd (CompileShader env GL_VERTEX_SHADER vertexShader
                      (snd (call env glCreateProgram w))))) as (_ & _ & Hof & _).
  destruct (CompileShader_cases GL_VERTEX_SHADER vertexShader
              (snd (call env glCreateProgram w))) as (_ & _ & Hov & _).
  eexists. eexists. split; [apply CreateShader_added|]. split; [|split].
  - unfold failed_calls, compiled_calls, submit_calls.
    destruct (_ =? 0)%Z, (_ =? 0)%Z; repeat constructor.
  - unfold failed_calls, compiled_calls, submit_calls.
    destruct (_ =? 0)%Z, (_ =? 0)%Z; reflexivity.
  - rewrite Ho, Hof, Hov. cbn [call snd cout]. rewrite append_assoc. reflexivity.
Qed.

Lemma render_loop_output (fuel : nat) (window : Z) :
  forall w : World,
    exists more : string,
      otext (cout (snd (render_loop env fuel window w))) = otext (cout w) ++ more.
Proof.
  induction fuel as [|fuel IH]; intros w.
  - exists "". cbn. now rewrite append_nil_r.
  - rewrite render_loop_S. cbv zeta.
    destruct (ret env (calls w) (glfwWindowShouldClose window) =? 0)%Z.
    + destruct (IH (snd (frame env window
                  (mkWorld (calls w ++ [glfwWindowShouldClose window])
                     (errors w ++ raises env (calls w) (glfwWindowShouldClose window))
                     (cout w))))) as [m2 H2].
      destruct (frame_run window
                  (mkWorld (calls w ++ [glfwWindowShouldClose window])
                     (errors w ++ raises env (calls w) (glfwWindowShouldClose window))
                     (cout w))) as [_ H1].
      cbv zeta in H1. cbn [calls errors cout] in H1.
      rewrite H2, H1, append_assoc. eexists. reflexivity.
    + exists "". cbn. now rewrite append_nil_r.
Qed.

(** Runs [CreateShader] and the render loop of an unfolded [main],
    keeping the facts above. *)
Ltac exec_tail HA FA LA OA HB FB DB SB OB :=
  match goal with
  | |- context [CreateShader env ?v ?f ?w] =>
      destruct (CreateShader_facts v f w) as (a1 & m1 & HA & FA & LA & OA);
      destruct (CreateShader env v f w) as [shader [c1 e1 [t1 h1]]]
  end;
  cbn [snd calls cout otext] in HA, OA;
  match goal with
  | |- context [render_loop env ?n ?win ?w] =>
      destruct (render_loop_added n win w)
        as (a2 & frames & HB & FB & DB & SB);
      destruct (render_loop_output n win w) as [m2 OB];
      destruct (render_loop env n win w) as [[|] [c2 e2 [t2 h2]]]
  end;
  cbn [snd calls cout otext] in HB, OB.

(** X17. The two early failures of [main]: when [glfwInit] fails nothing
    else is called; when the window cannot be created [glfwTerminate] is
    called; both return [-1] and print nothing.  When [main] returns [-1]
    with the window created, at the test of the parsed sources, it has
    made thirteen calls and [glfwTerminate] is not among them. *)
Theorem main_failure_paths (fuel : nat) :
  let create := glfwCreateWindow 640 480 "Hello World" 0 0 in
  (ret env [] glfwInit = 0%Z ->
   fst (main env fuel) = Some (-1)%Z
   /\ calls (snd (main env fuel)) = [glfwInit]
   /\ cout (snd (main env fuel)) = mkOstream "" false)
  /\ (ret env [] glfwInit <> 0%Z -> ret env [glfwInit] create = 0%Z ->
      fst (main env fuel) = Some (-1)%Z
      /\ calls (snd (main env fuel)) = [glfwInit; create; glfwTerminate]
      /\ cout (snd (main env fuel)) = mkOstream "" false)
  /\ (ret env [] glfwInit <> 0%Z -> ret env [glfwInit] create <> 0%Z ->
      fst (main env fuel) = Some (-1)%Z ->
      count is_glfwTerminate (calls (snd (main env fuel))) = 0%nat
      /\ In create (calls (snd (main env fuel)))
      /\ length (calls (snd (main env fuel))) = 13%nat).
Proof.
  intros create; subst create. split; [|split].
  - intros Hi. apply Z.eqb_eq in Hi.
    exec_setup Hinit Hwin Hsrc; try congruence. repeat split.
  - intros Hi Hw. apply Z.eqb_neq in Hi. apply Z.eqb_eq in Hw.
    exec_setup Hinit Hwin Hsrc; try congruence. repeat split.
  - intros Hi Hw. apply Z.eqb_neq in Hi, Hw.
    exec_setup Hinit Hwin Hsrc; try congruence;
      try solve [intros _; split; [reflexivity | split; [right; left|]; reflexivity]];
      exec_rest HL HG; discriminate.
Qed.

(** X18. When [main] returns [0] both parsed sources were non-empty, a
    program was linked and bound, and the last two calls delete that
    program and terminate GLFW; [glfwTerminate] is called nowhere before,
    and as many draw calls were made as buffers were swapped. *)
Theorem main_clean_shutdown (fuel : nat) :
  let src := ParseShader (files env) "res/shaders/Basic.shader" in
  fst (main env fuel) = Some 0%Z ->
  Str.empty (VertexSource src) || Str.empty (FragmentSource src) = false
  /\ exists (h : list Call) (program : Z),
       calls (snd (main env fuel)) = (h ++ [glDeleteProgram program; glfwTerminate])%list
       /\ In (glUseProgram program) h
       /\ existsb is_glLinkProgram h = true
       /\ count is_glfwTerminate h = 0%nat
       /\ count is_glDrawElements h = count is_glfwSwapBuffers h.
Proof.
  intros src; subst src.
  exec_setup Hinit Hwin Hsrc; try discriminate;
    exec_tail HA FA LA OA HB FB DB SB OB; exec; try discriminate;
    intros _; (split; [reflexivity|]); exists c2, shader;
    rewrite <- app_assoc; (split; [reflexivity|]);
    rewrite HB, HA.
  all: split; [apply in_or_app; left; apply in_or_app; right; now left|].
  all: split; [rewrite !existsb_app, LA, orb_true_r; reflexivity|].
  all: rewrite !count_app.
  all: rewrite (count_none is_glfwTerminate shader_call a1)
         by (assumption || (intros [] Hc; (reflexivity || discriminate Hc))).
  all: rewrite (count_none is_glfwTerminate loop_call a2)
         by (assumption || (intros [] Hc; (reflexivity || discriminate Hc))).
  all: rewrite (count_none is_glDrawElements shader_call a1)
         by (assumption || (intros [] Hc; (reflexivity || discriminate Hc))).
  all: rewrite (count_none is_glfwSwapBuffers shader_call a1)
         by (assumption || (intros [] Hc; (reflexivity || discriminate Hc))).
  all: rewrite DB, SB; split; reflexivity.
Qed.

(** X19. A failing [glewInit] does not stop [main]: once the window
    exists, [main] prints the warning [GLEW INIT NOT OK] when [glewInit]
    did not return [GLEW_OK], then in either case asks for the GL version
    and prints it, before anything else is printed. *)
Theorem main_glewInit_not_fatal (fuel : nat) :
  let create := glfwCreateWindow 640 480 "Hello World" 0 0 in
  let window := ret env [glfwInit] create in
  let glew := ret env [glfwInit; create; glfwMakeContextCurrent window] glewInit in
  let version := text env [glfwInit; create; glfwMakeContextCurrent window; glewInit]
                      (glGetString GL_VERSION) in
  ret env [] glfwInit <> 0%Z -> window <> 0%Z ->
  nth_error (calls (snd (main env fuel))) 4 = Some (glGetString GL_VERSION)
  /\ exists more : string,
       otext (cout (snd (main env fuel)))
       = (if (glew =? GLEW_OK)%Z then "" else "GLEW INIT NOT OK" ++ Str.endl)
         ++ version ++ Str.endl ++ more.
Proof.
  intros create window glew version Hi Hw. subst version glew window create.
  apply Z.eqb_neq in Hi, Hw.
  exec_setup Hinit Hwin Hsrc; try congruence;
    try solve [split; [reflexivity | exists ""; cbn [append];
                                     now rewrite ?append_assoc, ?append_nil_r]];
    exec_tail HA FA LA OA HB FB DB SB OB; exec;
    (split; [rewrite HB, HA; reflexivity|]);
    exists (m1 ++ m2); rewrite OB, OA; cbn [append];
    now rewrite ?append_assoc.
Qed.

End Runs.

(** ** The sample environment at work *)

Section Samples.

Local Open Scope string_scope.

Example getlines_sample :
  Str.getlines ("ab" ++ Str.endl ++ Str.endl ++ "c") = ["ab"; ""; "c"]
  /\ Str.getlines ("ab" ++ Str.endl) = ["ab"]
  /\ Str.getlines Str.endl = [""]
  /\ Str.getlines "" = [].
Proof. repeat split. Qed.

Example split_two_sections :
  split ["#shader vertex"; "a"; "#shader fragment"; "b"; ""; "c"]
  = mkSource (join_lines ["a"]) (join_lines ["b"; ""; "c"]).
Proof. reflexivity. Qed.

(** A marker naming both sections opens the vertex section. *)
Example split_vertex_first :
  split ["#shader fragment vertex"; "a"] = mkSource (join_lines ["a"]) "".
Proof. reflexivity. Qed.

Example main_sample :
  fst (main Demo.release 5) = Some 0%Z /\ fst (main Demo.release 1) = None.
Proof. vm_compute. split; reflexivity. Qed.

(** A failed compile of the vertex stage, and a successful one of the
    fragment stage. *)
Lemma CompileShader_status_C3_witness :
  (fst (CompileShader Demo.release (stage_enum Vertex) "garbage" world0) = 0%Z
   /\ otext (cout (snd (CompileShader Demo.release (stage_enum Vertex) "garbage" world0)))
      = join_lines ["Failed to compile vertex shader."; "ERROR"])
  /\ fst (CompileShader Demo.release (stage_enum Fragment) "void main(){}" world0) = 1%Z.
Proof.
  split.
  - destruct (CompileShader_status_C3 Demo.release Vertex "garbage" world0) as [H _].
    destruct H as (Hr & _ & Ho); [vm_compute; reflexivity|].
    split; [exact Hr | rewrite Ho; vm_compute; reflexivity].
  - destruct (CompileShader_status_C3 Demo.release Fragment "void main(){}" world0) as [_ H].
    destruct H as (Hr & _); [vm_compute; discriminate|].
    rewrite Hr. vm_compute. reflexivity.
Defined.

(** The handle [0] of a failed vertex compile is attached all the same. *)
Lemma CreateShader_sequence_C5_witness :
  fst (CompileShader Demo.release GL_VERTEX_SHADER "garbage"
         (snd (call Demo.release glCreateProgram world0))) = 0%Z
  /\ In (glAttachShader (ret Demo.release (calls world0) glCreateProgram) 0)
        (calls (snd (CreateShader Demo.release "garbage" "void main(){}" world0))).
Proof.
  destruct (CreateShader_sequence_C5 Demo.release "garbage" "void main(){}" world0)
    as (_ & _ & _ & _ & _ & _ & Hv & _).
  apply Hv. vm_compute. reflexivity.
Defined.

(** One pending error: two tests of the loop condition suffice, and in a
    build without [DEBUG] the macro leaves the call alone. *)
Lemma GLCheckError_polling_C9_witness :
  GLCheckError_loop 2 (mkWorld [] [1280%positive] (mkOstream "" false))
  = GLCheckError (mkWorld [] [1280%positive] (mkOstream "" false))
  /\ GLCall Demo.release (mret tt) (mret tt) = mret tt.
Proof.
  destruct (GLCheckError_polling_C9 Demo.release
              (mkWorld [] [1280%positive] (mkOstream "" false)))
    as (_ & Hfuel & Hmacro & _).
  split.
  - apply Hfuel. cbn. lia.
  - apply Hmacro. reflexivity.
Defined.

(** C9 as stated fails: in a build without [DEBUG] the polling around the
    draw call still runs.  A frame asks [glGetError] three times and
    reports the error [0x500] that the draw call raised. *)
Lemma polling_without_DEBUG_C9 :
  DEBUG Demo.release = false
  /\ filter is_glGetError (calls (snd (frame Demo.release 7 world0)))
     = [glGetError; glGetError; glGetError]
  /\ otext (cout (snd (frame Demo.release 7 world0))) = join_lines ["[OpenGL Error] (0x500)"]
  /\ otext (cout (snd (main Demo.release 5)))
     = join_lines ["4.6.0"; "[OpenGL Error] (0x500)"; "[OpenGL Error] (0x500)"].
Proof. vm_compute. repeat split. Qed.

(** C2 as stated fails: a file with a vertex section only is parsed into a
    non-empty vertex source and an empty fragment source, and [main]
    returns [-1] without linking anything. *)
Lemma vertex_only_aborts_C2 :
  ParseShader (files Demo.release_vertex_only) "res/shaders/Basic.shader"
  = mkSource (join_lines ["void main(){}"]) ""
  /\ fst (main Demo.release_vertex_only 5) = Some (-1)%Z
  /\ existsb is_glLinkProgram (calls (snd (main Demo.release_vertex_only 5))) = false
  /\ filter shader_call (calls (snd (main Demo.release_vertex_only 5))) = [].
Proof. vm_compute. repeat split. Qed.

Lemma main_rejects_empty_source_C2_witness :
  (fst (main Demo.release_vertex_only 5) = Some (-1)%Z
   /\ existsb is_glLinkProgram (calls (snd (main Demo.release_vertex_only 5))) = false)
  /\ (fst (main Demo.release 5) <> Some (-1)%Z
      /\ existsb is_glLinkProgram (calls (snd (main Demo.release 5))) = true).
Proof.
  split.
  - apply (main_rejects_empty_source_C2 Demo.release_vertex_only 5);
      vm_compute; (discriminate || reflexivity).
  - apply (main_rejects_empty_source_C2 Demo.release 5);
      vm_compute; (discriminate || reflexivity).
Defined.

Lemma main_abort_before_CreateShader_C10_witness :
  fst (main Demo.release_vertex_only 5) = Some (-1)%Z
  /\ Forall (fun c => shader_call c = false) (calls (snd (main Demo.release_vertex_only 5))).
Proof.
  destruct (main_abort_before_CreateShader_C10 Demo.release_vertex_only 5) as [H1 H2].
  assert (H : fst (main Demo.release_vertex_only 5) = Some (-1)%Z)
    by (apply H1; vm_compute; (discriminate || reflexivity)).
  split; [exact H | exact (H2 H)].
Defined.

End Samples.

(** ** More about the splitter *)

Section SplitterMore.

Local Open Scope string_scope.

Lemma getlines_nil (s : string) : Str.getlines s = [] -> s = "".
Proof.
  destruct s as [|c r]; [reflexivity|]. cbn [Str.getlines].
  destruct (Ascii.eqb c Str.newline); [discriminate|].
  destruct (Str.getlines r); discriminate.
Qed.

(** Joining the lines [getline] delivers gives the text back, with the
    newline a last unterminated line lacks. *)
Lemma join_getlines (s : string) :
  join_lines (Str.getlines s)
  = if Str.empty s || ends_with_newline s then s else s ++ Str.endl.
Proof.
  induction s as [|c r IH]; [reflexivity|].
  cbn [Str.getlines Str.empty orb ends_with_newline].
  destruct (Ascii.eqb c Str.newline) eqn:Hc.
  - apply Ascii.eqb_eq in Hc; subst c. cbn [join_lines append].
    rewrite IH. destruct r as [|d r]; [reflexivity|].
    cbn [Str.empty orb]. now destruct (ends_with_newline (String d r)).
  - destruct (Str.getlines r) as [|l ls] eqn:Hr.
    + apply getlines_nil in Hr; subst r. reflexivity.
    + cbn [join_lines append] in IH |- *. rewrite IH.
      destruct r as [|d r]; [discriminate Hr|].
      cbn [Str.empty orb]. now destruct (ends_with_newline (String d r)).
Qed.

Lemma getlines_unterminated (s : string) :
  s <> "" -> ends_with_newline s = false ->
  Str.getlines (s ++ Str.endl) = Str.getlines s.
Proof.
  induction s as [|c r IH]; [now intros []|]. intros _ He.
  cbn [append Str.getlines]. destruct r as [|d r].
  - cbn in He. rewrite He. reflexivity.
  - rewrite IH; [reflexivity | discriminate | exact He].
Qed.

Lemma join_lines_nil (ls : list string) : join_lines ls = "" -> ls = [].
Proof.
  destruct ls as [|l ls]; [reflexivity|]. cbn [join_lines].
  destruct l; discriminate.
Qed.

Lemma marker_section_not_NONE (m : string) : marker_section m <> NONE.
Proof. unfold marker_section. now destruct (Str.contains "vertex" m). Qed.

Lemma active_section_after_marker (m : string) (ls : list string) :
  recognized m = true -> active_section (m :: ls) <> NONE.
Proof.
  intros Hm. induction ls as [|l ls IH] using rev_ind.
  - unfold active_section. cbn. rewrite Hm. apply marker_section_not_NONE.
  - rewrite app_comm_cons, active_section_snoc.
    destruct (recognized l); [apply marker_section_not_NONE | exact IH].
Qed.

(** Where a tagged line comes from. *)
Lemma tag_from_In_iff (k : ShaderType) (l : string) (rest before : list string) :
  In (k, l) (tag_from before rest)
  <-> exists mid tl, rest = (mid ++ l :: tl)%list /\ is_marker l = false
                     /\ active_section (before ++ mid) = k.
Proof.
  revert before; induction rest as [|x rest IH]; intros before.
  - split; [intros [] | intros ([|? ?] & ? & H & _); discriminate H].
  - cbn [tag_from]. rewrite in_app_iff, IH. split.
    + intros [H|(mid & tl & -> & Hl & Hk)].
      * destruct (is_marker x) eqn:Hx; [destruct H|].
        destruct H as [H|[]]. injection H as <- <-.
        exists [], rest. now rewrite app_nil_r.
      * exists (x :: mid)%list, tl. rewrite <- app_assoc in Hk. cbn [app] in Hk.
        repeat split; assumption.
    + intros ([|y mid] & tl & E & Hl & Hk); injection E as -> ->.
      * left. rewrite Hl. left. rewrite app_nil_r in Hk. now rewrite Hk.
      * right. exists mid, tl. rewrite <- app_assoc. cbn [app].
        repeat split; assumption.
Qed.

Lemma split_rewrapped (vl fl : list string) :
  Forall (fun l => is_marker l = false) vl -> Forall (fun l => Str.no_newline l = true) vl ->
  Forall (fun l => is_marker l = false) fl -> Forall (fun l => Str.no_newline l = true) fl ->
  ParseStream (Some (rewrap (mkSource (join_lines vl) (join_lines fl))))
  = mkSource (join_lines vl) (join_lines fl).
Proof.
  intros Hv Hvn Hf Hfn. unfold ParseStream, stream_lines, rewrap.
  cbn [VertexSource FragmentSource].
  rewrite getlines_line, getlines_join, getlines_line by (assumption || reflexivity).
  rewrite <- (append_nil_r (join_lines fl)) at 1.
  rewrite getlines_join by assumption. cbn [Str.getlines]. rewrite app_nil_r.
  unfold split.
  change (parse_lines ("#shader vertex" :: vl ++ "#shader fragment" :: fl) parse_init)
    with (parse_lines (vl ++ "#shader fragment" :: fl) (mkParse VERTEX "" "")).
  rewrite parse_lines_app, parse_nonmarkers_vertex by assumption.
  change (parse_lines ("#shader fragment" :: fl) (mkParse VERTEX ("" ++ join_lines vl) ""))
    with (parse_lines fl (mkParse FRAGMENT (join_lines vl) "")).
  now rewrite parse_nonmarkers_fragment by assumption.
Qed.

(** X1. For every input the buffers hold exactly the non-marker lines
    that follow the first recognized marker: whatever precedes that
    marker is dropped, whatever follows is kept once, in one buffer or
    the other. *)
Theorem split_keeps_after_first_marker (before rest : list string) (m : string) :
  Forall (fun l => recognized l = false) before ->
  recognized m = true ->
  let tagged := tag_lines (m :: rest) in
  split (before ++ m :: rest)
  = mkSource (join_lines (section_lines VERTEX tagged))
             (join_lines (section_lines FRAGMENT tagged))
  /\ Permutation (section_lines VERTEX tagged ++ section_lines FRAGMENT tagged)
                 (non_markers rest).
Proof.
  intros Hb Hm tagged. split.
  - unfold tagged. rewrite <- split_tagged. unfold split, parse_init.
    now rewrite parse_lines_app, parse_none.
  - assert (Hmark : is_marker m = true)
      by (unfold recognized in Hm; now apply andb_prop in Hm as [? _]).
    assert (Hnm : non_markers rest = map snd tagged).
    { unfold tagged, tag_lines. rewrite tag_from_lines.
      unfold non_markers. cbn [filter]. now rewrite Hmark. }
    rewrite Hnm. apply sections_partition.
    apply (proj1 (under_marker_tags (m :: rest) [])).
    intros [|x mid] l tl E Hl; injection E as -> E.
    + congruence.
    + cbn [app]. now apply active_section_after_marker.
Qed.

Lemma split_keeps_after_first_marker_witness :
  split (["stray"; "#shader geometry"] ++ "#shader fragment" :: ["a"; "#shader vertex"; "b"])
  = mkSource (join_lines ["b"]) (join_lines ["a"]).
Proof.
  destruct (split_keeps_after_first_marker ["stray"; "#shader geometry"]
              ["a"; "#shader vertex"; "b"] "#shader fragment") as [H _].
  - repeat constructor.
  - reflexivity.
  - rewrite H. reflexivity.
Defined.

(** X2. Reading more lines never changes what a buffer already holds:
    the buffers of [a ++ b] are those of [a] followed by the lines of [b]
    tagged for each section. *)
Theorem split_extends (a b : list string) :
  VertexSource (split (a ++ b))
  = VertexSource (split a) ++ join_lines (section_lines VERTEX (tag_from a b))
  /\ FragmentSource (split (a ++ b))
     = FragmentSource (split a) ++ join_lines (section_lines FRAGMENT (tag_from a b)).
Proof.
  unfold split. cbn [VertexSource FragmentSource].
  rewrite parse_lines_app.
  rewrite (parse_lines_tagged b a (parse_lines a parse_init)).
  - split; reflexivity.
  - now rewrite (parse_lines_tagged a [] parse_init).
Qed.

(** X3. The section changes at recognized markers only, and once a
    section is open the parse never goes back to [NONE]. *)
Theorem section_never_closes :
  (forall (st : ParseState) (l : string),
      recognized l = false -> ptype (parse_line st l) = ptype st)
  /\ (forall (lines : list string) (st : ParseState),
         ptype st <> NONE -> ptype (parse_lines lines st) <> NONE).
Proof.
  assert (H1 : forall st l, ptype (parse_line st l)
                            = if recognized l then marker_section l else ptype st)
    by (intros; now rewrite parse_line_spec).
  split.
  - intros st l Hl. now rewrite H1, Hl.
  - induction lines as [|l lines IH]; intros st Hst; [exact Hst|].
    cbn [parse_lines fold_left]. apply IH. rewrite H1.
    destruct (recognized l); [apply marker_section_not_NONE | exact Hst].
Qed.

Lemma section_never_closes_witness :
  ptype (parse_line (mkParse FRAGMENT "" "") "#shader geometry") = FRAGMENT
  /\ ptype (parse_lines ["#shader"; "x"] (mkParse VERTEX "" "")) <> NONE.
Proof.
  destruct section_never_closes as [H1 H2]. split.
  - apply (H1 (mkParse FRAGMENT "" "")). reflexivity.
  - apply H2. discriminate.
Defined.

(** X4. A buffer is non-empty exactly when some non-marker line was read
    while its section was active; an empty line is enough. *)
Theorem buffer_nonempty_iff (lines : list string) :
  (VertexSource (split lines) <> ""
   <-> exists before l rest, lines = (before ++ l :: rest)%list
                             /\ is_marker l = false /\ active_section before = VERTEX)
  /\ (FragmentSource (split lines) <> ""
      <-> exists before l rest, lines = (before ++ l :: rest)%list
                                /\ is_marker l = false /\ active_section before = FRAGMENT).
Proof.
  assert (H : forall k,
             join_lines (section_lines k (tag_lines lines)) <> ""
             <-> exists before l rest, lines = (before ++ l :: rest)%list
                                       /\ is_marker l = false /\ active_section before = k).
  { intros k. split.
    - intros Hne. destruct (section_lines k (tag_lines lines)) as [|l ls] eqn:E;
        [now contradiction Hne|].
      assert (Hin : In l (section_lines k (tag_lines lines))) by (rewrite E; now left).
      unfold section_lines in Hin. apply in_map_iff in Hin as ([k' l'] & Hl & Hin).
      cbn in Hl; subst l'. apply filter_In in Hin as [Hin Hk]. cbn in Hk.
      assert (k' = k) by (now destruct k', k). subst k'.
      apply (tag_from_In_iff k l lines []) in Hin as (mid & tl & Hm).
      now exists mid, l, tl.
    - intros (before & l & rest & E & Hl & Hk) Hempty.
      apply join_lines_nil in Hempty.
      assert (Hin : In l (section_lines k (tag_lines lines))).
      { unfold section_lines. apply in_map_iff. exists (k, l). split; [reflexivity|].
        apply filter_In. split.
        - apply (tag_from_In_iff k l lines []). now exists before, rest.
        - cbn. now destruct k. }
      rewrite Hempty in Hin. destruct Hin. }
  rewrite split_tagged. cbn [VertexSource FragmentSource]. split; apply H.
Qed.

(** X5. A source whose two buffers consist of whole lines, none of them
    a marker, is read back as it is from the file that puts each buffer
    under its marker. *)
Theorem ParseStream_rewrap (src : ShaderProgramSource) :
  Str.empty (VertexSource src) || ends_with_newline (VertexSource src) = true ->
  Str.empty (FragmentSource src) || ends_with_newline (FragmentSource src) = true ->
  Forall (fun l => is_marker l = false) (Str.getlines (VertexSource src)) ->
  Forall (fun l => is_marker l = false) (Str.getlines (FragmentSource src)) ->
  ParseStream (Some (rewrap src)) = src.
Proof.
  destruct src as [V F]. cbn [VertexSource FragmentSource]. intros HV HF HVm HFm.
  assert (EV := join_getlines V). rewrite HV in EV.
  assert (EF := join_getlines F). rewrite HF in EF.
  rewrite <- EV, <- EF at 1. rewrite split_rewrapped; auto using getlines_no_newline.
  now rewrite EV, EF.
Qed.

Lemma ParseStream_rewrap_witness :
  ParseStream (Some (rewrap (mkSource (join_lines ["void main(){}"; ""]) "")))
  = mkSource (join_lines ["void main(){}"; ""]) "".
Proof.
  apply ParseStream_rewrap; try reflexivity; vm_compute; repeat constructor.
Defined.

(** X6. Whether the last line of the file ends with a newline makes no
    difference to the split. *)
Theorem ParseStream_final_newline (content : string) :
  ends_with_newline content = false ->
  ParseStream (Some (content ++ Str.endl)) = ParseStream (Some content).
Proof.
  intros He. destruct content as [|c r]; [reflexivity|].
  unfold ParseStream, stream_lines. now rewrite getlines_unterminated.
Qed.

Lemma ParseStream_final_newline_witness :
  ParseStream (Some (("#shader vertex" ++ Str.endl ++ "x") ++ Str.endl))
  = ParseStream (Some ("#shader vertex" ++ Str.endl ++ "x")).
Proof. apply ParseStream_final_newline. reflexivity. Defined.

(** X7. Each buffer [ParseStream] returns is made of whole lines: it is
    empty or ends with a newline, and reading it line by line and joining
    the lines gives it back. *)
Theorem ParseStream_whole_lines (stream : ifstream) :
  let src := ParseStream stream in
  (join_lines (Str.getlines (VertexSource src)) = VertexSource src
   /\ Str.empty (VertexSource src) || ends_with_newline (VertexSource src) = true)
  /\ (join_lines (Str.getlines (FragmentSource src)) = FragmentSource src
      /\ Str.empty (FragmentSource src) || ends_with_newline (FragmentSource src) = true).
Proof.
  assert (Hlen : forall s, s ++ Str.endl <> s).
  { induction s as [|c s IH]; intros H; [discriminate H|].
    injection H as H. now apply IH. }
  assert (H : forall k,
             let b := join_lines (section_lines k (tag_lines (stream_lines stream))) in
             join_lines (Str.getlines b) = b
             /\ Str.empty b || ends_with_newline b = true).
  { intros k b.
    assert (E : join_lines (Str.getlines b) = b).
    { unfold b. set (ls := section_lines k (tag_lines (stream_lines stream))).
      rewrite <- (append_nil_r (join_lines ls)) at 1.
      rewrite getlines_join; [now rewrite app_nil_r|]. unfold ls.
      apply Forall_forall. intros l Hl. apply section_lines_In in Hl as [_ Hl].
      assert (Hn : Forall (fun l => Str.no_newline l = true) (stream_lines stream))
        by (destruct stream; [apply getlines_no_newline | constructor]).
      rewrite Forall_forall in Hn. now apply Hn. }
    split; [exact E|]. rewrite join_getlines in E.
    destruct (Str.empty b || ends_with_newline b); [reflexivity|].
    now apply Hlen in E. }
  intros src. unfold src, ParseStream. rewrite split_tagged.
  cbn [VertexSource FragmentSource]. split; apply H.
Qed.

End SplitterMore.

(** ** The further properties on the sample environment *)

Section MoreSamples.

Local Open Scope string_scope.

Lemma buffer_nonempty_iff_witness :
  VertexSource (split ["#shader vertex"; ""]) <> "".
Proof.
  apply (proj1 (buffer_nonempty_iff ["#shader vertex"; ""])).
  exists ["#shader vertex"], "", []. repeat split.
Defined.

Lemma CompileShader_stops_at_NUL_witness :
  CompileShader Demo.release GL_VERTEX_SHADER ("void main(){}" ++ String zero "garbage") world0
  = CompileShader Demo.release GL_VERTEX_SHADER "void main(){}" world0.
Proof.
  apply (proj2 (CompileShader_stops_at_NUL Demo.release GL_VERTEX_SHADER world0)).
  reflexivity.
Defined.


Lemma CreateShader_deletes_each_once_witness :
  exists added : list Call,
    calls (snd (CreateShader Demo.release "garbage" "void main(){}" world0)) = added
    /\ count (deletes 2) added = 1%nat /\ count (deletes 3) added = 1%nat.
Proof.
  destruct (CreateShader_deletes_each_once Demo.release "garbage" "void main(){}" world0)
    as (added & Hc & _ & _ & H).
  exists added. split; [exact Hc|].
  apply H; vm_compute; discriminate.
Defined.

(** With room for one frame only, the loop is still running after it. *)
Lemma render_loop_frames_witness :
  exists added : list Call,
    calls (snd (render_loop Demo.release 1 7 world0)) = added
    /\ count is_glDrawElements added = 1%nat.
Proof.
  destruct (render_loop_frames Demo.release 1 7 world0)
    as (added & frames & Hc & _ & _ & Hd & _ & _ & _ & _ & Hf).
  exists added. split; [exact Hc|]. rewrite Hd. apply Hf.
  vm_compute. reflexivity.
Defined.

Lemma main_exit_status_witness :
  main Demo.release (3 + 4) = main Demo.release 3.
Proof.
  apply (proj2 (main_exit_status Demo.release 3) 0%Z 4%nat).
  vm_compute. reflexivity.
Defined.

Lemma main_failure_paths_witness :
  calls (snd (main Demo.no_glfw 5)) = [glfwInit]
  /\ calls (snd (main Demo.no_window 5))
     = [glfwInit; glfwCreateWindow 640 480 "Hello World" 0 0; glfwTerminate]
  /\ count is_glfwTerminate (calls (snd (main Demo.release_vertex_only 5))) = 0%nat.
Proof.
  split; [|split].
  - destruct (main_failure_paths Demo.no_glfw 5) as (H & _ & _).
    destruct H as (_ & Hc & _); [reflexivity | exact Hc].
  - destruct (main_failure_paths Demo.no_window 5) as (_ & H & _).
    destruct H as (_ & Hc & _); [vm_compute; discriminate | reflexivity | exact Hc].
  - destruct (main_failure_paths Demo.release_vertex_only 5) as (_ & _ & H).
    destruct H as (Hc & _); [vm_compute; discriminate | vm_compute; discriminate
                            | vm_compute; reflexivity | exact Hc].
Defined.

Lemma main_clean_shutdown_witness :
  exists (h : list Call) (program : Z),
    calls (snd (main Demo.release 5)) = (h ++ [glDeleteProgram program; glfwTerminate])%list
    /\ In (glUseProgram program) h.
Proof.
  destruct (main_clean_shutdown Demo.release 5) as (_ & h & program & Hc & Hu & _).
  - vm_compute. reflexivity.
  - exists h, program. split; assumption.
Defined.

Lemma main_glewInit_not_fatal_witness :
  nth_error (calls (snd (main Demo.no_glew 5))) 4 = Some (glGetString GL_VERSION)
  /\ exists more : string,
       otext (cout (snd (main Demo.no_glew 5)))
       = join_lines ["GLEW INIT NOT OK"; "4.6.0"] ++ more.
Proof.
  destruct (main_glewInit_not_fatal Demo.no_glew 5) as (Hn & more & Ho).
  - vm_compute. discriminate.
  - vm_compute. discriminate.
  - split; [exact Hn|]. exists more. rewrite Ho. reflexivity.
Defined.

End MoreSamples.
